(** * CONNECTING-DOTS: outline extraction, section segmentation, chunking
      and persona ranking

    A shallow embedding of [app/utils.py], [app/outline.py], [app/ranker.py]
    and the validation gate of [app/main.py].

    Conventions of the embedding.
    - Python [str] is [string]; characters are the code points below 256, so
      [isspace], [isupper] and [lower] are the Latin-1 restriction of the
      Unicode predicates Python uses.
    - Python [int] is [Z] where the code does arithmetic on it that may leave
      the naturals (window offsets), and [nat] for page numbers and indices.
    - Python [float] is read as an exact rational ([Q]): font sizes,
      coordinates, similarity values and scores.  Comparisons and the score
      formula are stated over that reading.
    - A raised exception is [Err e] in [result]; [Logged] adds the records
      written to the log.
    - The [while] loop of [chunk_text] takes fuel; running out of fuel is
      [None]. *)

From Stdlib Require Import ZArith QArith Qminmax List String Ascii Bool Lia.
From Stdlib Require Import Permutation Sorted Lqa.
Import ListNotations.

Local Open Scope string_scope.
Local Open Scope Z_scope.

(** ** Python string primitives *)

Module Py.

(** [c.isspace()] for a code point below 256. *)
Definition isspace (c : ascii) : bool :=
let n := N_of_ascii c in
((9 <=? n) && (n <=? 13) || (28 <=? n) && (n <=? 32)
 || (n =? 133) || (n =? 160))%N.

(** [c.isupper()] for a code point below 256. *)
Definition isupper (c : ascii) : bool :=
let n := N_of_ascii c in
((65 <=? n) && (n <=? 90) || (192 <=? n) && (n <=? 214)
 || (216 <=? n) && (n <=? 222))%N.

(** [c.lower()] for a code point below 256. *)
Definition lower_char (c : ascii) : ascii :=
if isupper c then ascii_of_N (N_of_ascii c + 32) else c.

Fixpoint lower (s : string) : string :=
match s with
| EmptyString => EmptyString
| String c s' => String (lower_char c) (lower s')
end.

Definition is_empty (s : string) : bool :=
match s with EmptyString => true | _ => false end.

(** [text.split()]: maximal runs of non-whitespace characters.  [cur] is the
  word being read. *)
Fixpoint split_from (cur : string) (s : string) : list string :=
match s with
| EmptyString => if is_empty cur then [] else [cur]
| String c s' =>
    if isspace c then
      if is_empty cur then split_from EmptyString s'
      else cur :: split_from EmptyString s'
    else split_from (cur ++ String c EmptyString) s'
end.

Definition split (s : string) : list string := split_from EmptyString s.

(** [sep.join(l)]. *)
Definition join (sep : string) (l : list string) : string :=
  String.concat sep l.

(** [s.replace(a, b)] for single characters. *)
Fixpoint replace_char (a b : ascii) (s : string) : string :=
match s with
| EmptyString => EmptyString
| String c s' => String (if Ascii.eqb c a then b else c) (replace_char a b s')
end.

Fixpoint lstrip (s : string) : string :=
match s with
| EmptyString => EmptyString
| String c s' => if isspace c then lstrip s' else s
end.

(** Removes trailing whitespace: the character is dropped when everything
  after it has been dropped and it is whitespace itself. *)
Fixpoint rstrip (s : string) : string :=
match s with
| EmptyString => EmptyString
| String c s' =>
    let r := rstrip s' in
    if is_empty r && isspace c then EmptyString else String c r
end.

(** [s.strip()]. *)
Definition strip (s : string) : string := rstrip (lstrip s).

(** [needle in hay]. *)
Fixpoint contains (needle hay : string) : bool :=
String.prefix needle hay ||
match hay with
| EmptyString => false
| String _ hay' => contains needle hay'
end.

(** [any(...)] and [len(...)]. *)
Definition any (l : list bool) : bool := existsb (fun b => b) l.

Definition len {A} (l : list A) : Z := Z.of_nat (List.length l).

(** [l[a:b]], with Python's treatment of negative and out-of-range bounds. *)
Definition slice_bound (n i : Z) : Z :=
if i <? 0 then Z.max (i + n) 0 else Z.min i n.

Definition slice {A} (l : list A) (a b : Z) : list A :=
let a' := slice_bound (len l) a in
let b' := slice_bound (len l) b in
firstn (Z.to_nat (b' - a')) (skipn (Z.to_nat a') l).

(** [range(a, b)] over indices. *)
Definition range (a b : nat) : list nat := seq a (b - a).

End Py.

(** ** utils.py: [chunk_text] *)

(** One pass through the body of the [while] loop: the chunk list after the
    append, and the next [start], or [None] at the [break]. *)
Definition chunk_body (words : list string) (max_tokens overlap : Z)
    (start : Z) (chunks : list string) : list string * option Z :=
  let end_ := Z.min (start + max_tokens) (Py.len words) in
  let chunk := Py.join " " (Py.slice words start end_) in
  let chunks := (chunks ++ [chunk])%list in
  if end_ >=? Py.len words then (chunks, None)
  else (chunks, Some (end_ - overlap)).

Fixpoint chunk_loop (fuel : nat) (words : list string) (max_tokens overlap : Z)
    (start : Z) (chunks : list string) : option (list string) :=
  match fuel with
  | O => None
  | S fuel' =>
      if start <? Py.len words then
        match chunk_body words max_tokens overlap start chunks with
        | (chunks', None) => Some chunks'
        | (chunks', Some start') =>
            chunk_loop fuel' words max_tokens overlap start' chunks'
        end
      else Some chunks
  end.

Definition chunk_text_fuel (fuel : nat) (text : string)
    (max_tokens overlap : Z) : option (list string) :=
  if Py.is_empty text then Some []
  else
    let words := Py.split text in
    if Py.len words <=? max_tokens then Some [text]
    else chunk_loop fuel words max_tokens overlap 0 [].

(** The loop is given one unit of fuel per word, and one more. *)
Definition chunk_text (text : string) (max_tokens overlap : Z)
  : option (list string) :=
  chunk_text_fuel (S (List.length (Py.split text))) text max_tokens overlap.

(** ** Exceptions, results and the log *)

Inductive exn : Type :=
| ValueError (msg : string)
| FileDataError (msg : string)
| StopIteration
| IndexError
| KeyError (key : string).

(** [str(e)]. *)
Definition str_of_exn (e : exn) : string :=
  match e with
  | ValueError msg => msg
  | FileDataError msg => msg
  | StopIteration => ""
  | IndexError => "list index out of range"
  | KeyError key => key
  end.

Inductive result (A : Type) : Type :=
| Ok (a : A)
| Err (e : exn).
Arguments Ok {A} a.
Arguments Err {A} e.

(** The records written by [logger.error] and [logger.warning]; the
    [logger.info] lines are not tracked. *)
Inductive log_entry : Type :=
| LogError (msg : string)
| LogWarning (msg : string).

(** A computation that may raise and that writes to the log. *)
Definition Logged (A : Type) : Type := result A * list log_entry.

Definition ret {A} (a : A) : Logged A := (Ok a, []).
Definition raise {A} (e : exn) : Logged A := (Err e, []).
Definition tell (l : log_entry) : Logged unit := (Ok tt, [l]).

Definition bind {A B} (m : Logged A) (k : A -> Logged B) : Logged B :=
  match m with
  | (Ok a, l1) => let (r, l2) := k a in (r, (l1 ++ l2)%list)
  | (Err e, l1) => (Err e, l1)
  end.

(** [try: m  except Exception as e: h e]. *)
Definition try_except {A} (m : Logged A) (h : exn -> Logged A) : Logged A :=
  match m with
  | (Ok a, l1) => (Ok a, l1)
  | (Err e, l1) => let (r, l2) := h e in (r, (l1 ++ l2)%list)
  end.

Definition lift {A} (r : result A) : Logged A := (r, []).

Declare Scope logged_scope.
Delimit Scope logged_scope with logged.
Notation "x <- m ;; k" := (bind m (fun x => k))
  (at level 61, m at next level, right associativity) : logged_scope.
Notation "m ;;; k" := (bind m (fun _ => k))
  (at level 61, right associativity) : logged_scope.

(** ** The collaborator: documents as PyMuPDF presents them *)

Definition BBox : Type := (Q * Q * Q * Q)%type.

(** A span of [page.get_text("dict")]. *)
Record Span : Type := mkSpan {
  span_text : string;
  span_size : Q;
  span_font : string;
  span_flags : Z;
  span_bbox : BBox
}.

(** A line is its list of spans. *)
Definition Line : Type := list Span.

(** A block of the page dictionary: a text block has the key ["lines"], an
    image block has not. *)
Inductive RawBlock : Type :=
| TextBlock (lines : list Line)
| ImageBlock.

(** A page: its dictionary blocks and its plain text, [page.get_text()]. *)
Record Page : Type := mkPage {
  page_blocks : list RawBlock;
  page_text : string
}.

Definition Document : Type := list Page.

(** A path on disk: whether it exists, its size, and what [fitz.open] makes
    of it ([None] when it raises). *)
Record PdfFile : Type := mkPdfFile {
  name : string;
  exists_ : bool;
  st_size : Z;
  pdf : option Document
}.

Definition fitz_open (f : PdfFile) : result Document :=
  if exists_ f then
    match pdf f with
    | Some doc => Ok doc
    | None => Err (FileDataError "cannot open document")
    end
  else Err (FileDataError "no such file").

(** ** utils.py: [validate_pdf] *)

Definition validate_pdf (pdf_path : PdfFile) : bool :=
  if negb (exists_ pdf_path) then false
  else if st_size pdf_path =? 0 then false
  else
    match fitz_open pdf_path with
    | Err _ => false
    | Ok doc =>
        let page_count := Py.len doc in
        if (page_count =? 0) || (page_count >? 50) then false else true
    end.

(** ** Comparisons on numbers and a stable sort *)

Definition Qleb (a b : Q) : bool := Qle_bool a b.
Definition Qltb (a b : Q) : bool := negb (Qle_bool b a).

(** [max(a, b)] and [min(a, b)] of two numbers: the first one on a tie. *)
Definition py_max (a b : Q) : Q := if Qltb a b then b else a.
Definition py_min (a b : Q) : Q := if Qltb b a then b else a.

(** [list.sort(key=...)] and [sorted(..., key=..., reverse=...)] are stable
    and compare keys with [<] only.  [insert_by] puts [x] in front of the
    first element whose key is not below the key of [x]. *)
Section StableSort.
Context {A K : Type}.
Variable ltb : K -> K -> bool.
Variable key : A -> K.

Fixpoint insert_by (x : A) (l : list A) : list A :=
  match l with
  | [] => [x]
  | y :: l' =>
      if ltb (key y) (key x) then y :: insert_by x l' else x :: y :: l'
  end.

Fixpoint sort_by (l : list A) : list A :=
  match l with
  | [] => []
  | x :: l' => insert_by x (sort_by l')
  end.
End StableSort.

(** With [reverse=True] the order of the keys is flipped and elements with
    equal keys still keep their order. *)
Definition sorted {A K} (ltb : K -> K -> bool) (key : A -> K)
    (reverse : bool) (l : list A) : list A :=
  if reverse then sort_by (fun a b => ltb b a) key l
  else sort_by ltb key l.

(** [statistics.median]. *)
Definition median (data : list Q) : result Q :=
  let data := sorted Qltb (fun x => x) false data in
  let n := List.length data in
  if (n =? 0)%nat then Err (ValueError "no median for empty data")
  else if (n mod 2 =? 1)%nat then Ok (nth (n / 2) data 0%Q)
  else
    let i := (n / 2)%nat in
    Ok ((nth (i - 1) data 0 + nth i data 0) / 2)%Q.

(** ** outline.py *)

Module Block.
Record t : Type := mk {
  text : string;
  fontsize : Q;
  fontname : string;
  flags : Z;
  bbox : BBox;
  page : nat;
  is_bold : bool;
  y_position : Q;
  x_position : Q;
  width : Q;
  height : Q
}.
End Block.

Module Heading.
Record t : Type := mk {
  level : string;
  text : string;
  page : nat
}.
End Heading.

Record Outline : Type := mkOutline {
  title : string;
  outline : list Heading.t
}.

Definition min_title_font_ratio : Q := 1.8.
Definition min_heading_font_ratio : Q := 1.0.
Definition min_h1_font_ratio : Q := 1.4.
Definition min_h2_font_ratio : Q := 1.2.

Definition _is_bold (fontname : string) (flags : Z) : bool :=
  if Py.contains "bold" (Py.lower fontname) then true
  else negb (Z.land flags (2 ^ 4) =? 0).

(** The state of the loop over the spans of one line. *)
Record LineAcc : Type := mkLineAcc {
  line_text : string;
  acc_fontsize : Q;
  acc_fontname : string;
  acc_flags : Z;
  acc_bbox : option BBox
}.

Definition merge_bbox (a b : BBox) : BBox :=
  match a, b with
  | (a0, a1, a2, a3), (b0, b1, b2, b3) =>
      (py_min a0 b0, py_min a1 b1, py_max a2 b2, py_max a3 b3)
  end.

Definition add_span (acc : LineAcc) (span : Span) : LineAcc :=
  if negb (Py.is_empty (Py.strip (span_text span))) then
    mkLineAcc
      (line_text acc ++ span_text span)
      (py_max (acc_fontsize acc) (span_size span))
      (span_font span)
      (span_flags span)
      (match acc_bbox acc with
       | None => Some (span_bbox span)
       | Some bbox => Some (merge_bbox bbox (span_bbox span))
       end)
  else acc.

Definition block_of_line (page_num : nat) (line : Line) : list Block.t :=
  let acc := fold_left add_span line (mkLineAcc "" 0 "" 0 None) in
  let line_text := Py.strip (line_text acc) in
  match acc_bbox acc with
  | Some (x0, y0, x1, y1) =>
      if negb (Py.is_empty line_text) then
        [Block.mk line_text (acc_fontsize acc) (acc_fontname acc)
           (acc_flags acc) (x0, y0, x1, y1) page_num
           (_is_bold (acc_fontname acc) (acc_flags acc))
           y0 x0 (x1 - x0)%Q (y1 - y0)%Q]
      else []
  | None => []
  end.

Definition _extract_page_blocks (page : Page) (page_num : nat)
  : list Block.t :=
  flat_map
    (fun block =>
       match block with
       | ImageBlock => []
       | TextBlock lines => flat_map (block_of_line page_num) lines
       end)
    (page_blocks page).

(** [min(l, key=...)] and [max(l, key=...)]: the first extremal element. *)
Fixpoint min_by {A} (key : A -> Q) (best : A) (l : list A) : A :=
  match l with
  | [] => best
  | x :: l' => min_by key (if Qltb (key x) (key best) then x else best) l'
  end.

Fixpoint max_by {A} (key : A -> Q) (best : A) (l : list A) : A :=
  match l with
  | [] => best
  | x :: l' => max_by key (if Qltb (key best) (key x) then x else best) l'
  end.

Definition _extract_title (blocks : list Block.t) (median_fontsize : Q)
  : string :=
  match filter (fun b => (Block.page b =? 1)%nat) blocks with
  | [] => ""
  | b0 :: rest =>
      let first_page_blocks := b0 :: rest in
      let title_candidates :=
        filter
          (fun block =>
             Qleb min_title_font_ratio (Block.fontsize block / median_fontsize))
          first_page_blocks in
      let title_candidates :=
        match title_candidates with
        | [] => [max_by Block.fontsize b0 rest]
        | _ => title_candidates
        end in
      match title_candidates with
      | [] => ""
      | c0 :: cs => Block.text (min_by Block.y_position c0 cs)
      end
  end.

Definition _is_centered (block : Block.t) : bool :=
  Qltb 100 (Block.x_position block).

Definition count_upper (text : string) : nat :=
  List.length (filter Py.isupper (list_ascii_of_string text)).

Definition _is_capitalized (text : string) : bool :=
  if (String.length text <? 3)%nat then false
  else
    Qltb 0.7 (inject_Z (Z.of_nat (count_upper text))
              / inject_Z (Z.of_nat (String.length text))).

(** The four regular expressions of [_is_numbered_heading], matched at the
    start of the text. *)
Definition is_digit (c : ascii) : bool :=
  let n := N_of_ascii c in ((48 <=? n) && (n <=? 57))%N.

Definition is_AZ (c : ascii) : bool :=
  let n := N_of_ascii c in ((65 <=? n) && (n <=? 90))%N.

Fixpoint drop_while (p : ascii -> bool) (s : string) : string :=
  match s with
  | EmptyString => EmptyString
  | String c s' => if p c then drop_while p s' else s
  end.

(** [p+] followed by [k]: one character of [p], then as many as there are. *)
Definition plus_then (p : ascii -> bool) (k : string -> bool) (s : string)
  : bool :=
  match s with
  | String c s' => p c && k (drop_while p s')
  | EmptyString => false
  end.

Definition starts_with_char (p : ascii -> bool) (s : string) : bool :=
  match s with
  | String c _ => p c
  | EmptyString => false
  end.

Definition is_dot (c : ascii) : bool := Ascii.eqb c ".".

Definition re_digits_dot : string -> bool :=
  plus_then is_digit (starts_with_char is_dot).

Definition re_digits_space_AZ : string -> bool :=
  plus_then is_digit (plus_then Py.isspace (starts_with_char is_AZ)).

Definition re_AZ_dot (s : string) : bool :=
  match s with
  | String c s' => is_AZ c && starts_with_char is_dot s'
  | EmptyString => false
  end.

Definition re_digits_dot_digits : string -> bool :=
  plus_then is_digit
    (fun s =>
       match s with
       | String c s' => is_dot c && starts_with_char is_digit s'
       | EmptyString => false
       end).

Definition _is_numbered_heading (text : string) : bool :=
  Py.any [re_digits_dot text; re_digits_space_AZ text; re_AZ_dot text;
          re_digits_dot_digits text].

(** [std_fontsize] is passed along by the source and never read; it is left
    out, here and in [_extract_title] and [_extract_headings]. *)
Definition _is_heading_candidate (block : Block.t) (median_fontsize : Q)
  : bool :=
  let font_ratio := (Block.fontsize block / median_fontsize)%Q in
  let criteria :=
    [Qleb min_heading_font_ratio font_ratio;
     Block.is_bold block;
     _is_centered block;
     _is_capitalized (Block.text block);
     _is_numbered_heading (Block.text block)] in
  Py.any criteria.

Definition _determine_heading_level (block : Block.t) (median_fontsize : Q)
  : string :=
  let font_ratio := (Block.fontsize block / median_fontsize)%Q in
  if Qleb min_h1_font_ratio font_ratio then "H1"
  else if Qleb min_h2_font_ratio font_ratio then "H2"
  else "H3".

(** Equality of two block dictionaries, field by field. *)
Definition bbox_eqb (a b : BBox) : bool :=
  match a, b with
  | (a0, a1, a2, a3), (b0, b1, b2, b3) =>
      Qeq_bool a0 b0 && Qeq_bool a1 b1 && Qeq_bool a2 b2 && Qeq_bool a3 b3
  end.

Definition block_eqb (a b : Block.t) : bool :=
  String.eqb (Block.text a) (Block.text b)
  && Qeq_bool (Block.fontsize a) (Block.fontsize b)
  && String.eqb (Block.fontname a) (Block.fontname b)
  && (Block.flags a =? Block.flags b)
  && bbox_eqb (Block.bbox a) (Block.bbox b)
  && (Block.page a =? Block.page b)%nat
  && Bool.eqb (Block.is_bold a) (Block.is_bold b)
  && Qeq_bool (Block.y_position a) (Block.y_position b)
  && Qeq_bool (Block.x_position a) (Block.x_position b)
  && Qeq_bool (Block.width a) (Block.width b)
  && Qeq_bool (Block.height a) (Block.height b).

(** [blocks.index(b)]. *)
Fixpoint index (b : Block.t) (blocks : list Block.t) : option nat :=
  match blocks with
  | [] => None
  | b' :: rest =>
      if block_eqb b' b then Some O else option_map S (index b rest)
  end.

(** The key of the sort in [_extract_headings]: the page of the heading [x],
    then the [y_position] of [blocks[blocks.index(b)]] for [b] the first
    block whose text is the text of [x]. *)
Definition heading_sort_key (blocks : list Block.t) (x : Heading.t)
  : result (nat * Q) :=
  match find (fun b => String.eqb (Block.text b) (Heading.text x)) blocks with
  | None => Err StopIteration
  | Some b =>
      match index b blocks with
      | None => Err (ValueError "is not in list")
      | Some i =>
          match nth_error blocks i with
          | None => Err IndexError
          | Some b' => Ok (Heading.page x, Block.y_position b')
          end
      end
  end.

(** [<] on the key tuples. *)
Definition key_ltb (a b : nat * Q) : bool :=
  if (fst a =? fst b)%nat then Qltb (snd a) (snd b)
  else (fst a <? fst b)%nat.

(** The keys are computed once for every element before the list is
    rearranged; an exception from the key function leaves the sort. *)
Fixpoint decorate {A K} (key : A -> result K) (l : list A)
  : result (list (K * A)) :=
  match l with
  | [] => Ok []
  | x :: l' =>
      match key x with
      | Err e => Err e
      | Ok k =>
          match decorate key l' with
          | Err e => Err e
          | Ok d => Ok ((k, x) :: d)
          end
      end
  end.

Definition _extract_headings (blocks : list Block.t) (median_fontsize : Q)
  : result (list Heading.t) :=
  let headings :=
    map
      (fun block =>
         Heading.mk (_determine_heading_level block median_fontsize)
           (Block.text block) (Block.page block))
      (filter (fun block => _is_heading_candidate block median_fontsize)
         blocks) in
  match decorate (heading_sort_key blocks) headings with
  | Err e => Err e
  | Ok d => Ok (map snd (sorted key_ltb fst false d))
  end.

(** The blocks of all pages, with page numbers from 1. *)
Fixpoint all_blocks_from (page_num : nat) (doc : Document) : list Block.t :=
  match doc with
  | [] => []
  | page :: doc' =>
      (_extract_page_blocks page (page_num + 1)
       ++ all_blocks_from (S page_num) doc')%list
  end.

(** The mean and the standard deviation of the font sizes are computed by
    the source and used nowhere; they are left out. *)
Definition extract_outline (pdf_path : PdfFile) : Logged Outline :=
  try_except
    (doc <- lift (fitz_open pdf_path) ;;
     if Py.len doc =? 0 then raise (ValueError "PDF has no pages")
     else
       let all_blocks := all_blocks_from 0 doc in
       let font_sizes :=
         filter (fun s => Qltb 0 s) (map Block.fontsize all_blocks) in
       match font_sizes with
       | [] => raise (ValueError "No text with font size information found")
       | _ =>
           median_fontsize <- lift (median font_sizes) ;;
           let title := _extract_title all_blocks median_fontsize in
           outline <- lift (_extract_headings all_blocks median_fontsize) ;;
           ret (mkOutline title outline)
       end)%logged
    (fun e =>
       (tell (LogError ("Error extracting outline: " ++ str_of_exn e)) ;;;
        raise e)%logged).

(** ** ranker.py *)

Module Sec.
(** A section dictionary.  The keys ["document"] and ["relevance_score"]
    are added after the dictionary is built, so they are optional here. *)
Record t : Type := mk {
  section_title : string;
  level : string;
  page : nat;
  text : string;
  chunks : list string;
  importance_rank : nat;
  document : option string;
  relevance_score : option Q
}.

Definition set_document (d : string) (s : t) : t :=
  mk (section_title s) (level s) (page s) (text s) (chunks s)
     (importance_rank s) (Some d) (relevance_score s).

Definition set_relevance_score (q : Q) (s : t) : t :=
  mk (section_title s) (level s) (page s) (text s) (chunks s)
     (importance_rank s) (document s) (Some q).

Definition set_importance_rank (r : nat) (s : t) : t :=
  mk (section_title s) (level s) (page s) (text s) (chunks s)
     r (document s) (relevance_score s).
End Sec.

Record Weights : Type := mkWeights {
  semantic_similarity : Q;
  level_weight : Q;
  recency_factor : Q;
  content_boost : Q
}.

Definition weights : Weights := mkWeights 0.55 0.25 0.15 0.05.

Definition level_weights : list (string * Q) :=
  [("H1", 1.0%Q); ("H2", 0.7%Q); ("H3", 0.4%Q); ("title", 1.2%Q)].

(** [d.get(key, default)]. *)
Fixpoint dict_get {V} (d : list (string * V)) (key : string) (default : V)
  : V :=
  match d with
  | [] => default
  | (k, v) :: d' => if String.eqb k key then v else dict_get d' key default
  end.

Definition newline : ascii := "010"%char.
Definition tab : ascii := "009"%char.
Definition space : ascii := " "%char.
Definition nl : string := String newline EmptyString.

Definition _clean_text (text : string) : string :=
  let text := Py.join " " (Py.split text) in
  let text := Py.replace_char tab space (Py.replace_char newline space text) in
  Py.strip text.

(** [chunk_text(cleaned_text, max_tokens=200, overlap=50)] as a list.  The
    loop ends for these parameters ([chunk_text_200_50_returns] below), so the
    second branch is never taken. *)
Definition chunk_text_200_50 (text : string) : list string :=
  match chunk_text text 200 50 with
  | Some chunks => chunks
  | None => []
  end.

(** [doc[page_num].get_text()]. *)
Definition get_page_text (doc : Document) (page_num : nat) : result string :=
  match nth_error doc page_num with
  | Some page => Ok (page_text page)
  | None => Err IndexError
  end.

(** The loop that builds [section_text]. *)
Fixpoint read_pages (doc : Document) (page_nums : list nat)
    (section_text : string) : result string :=
  match page_nums with
  | [] => Ok section_text
  | page_num :: rest =>
      match get_page_text doc page_num with
      | Err e => Err e
      | Ok page_text => read_pages doc rest (section_text ++ page_text ++ nl)
      end
  end.

(** The body of the loop over [enumerate(outline)].  Page numbers of
    headings are at least 1 (they are [page_num + 1] in [extract_outline]),
    so [start_page - 1] stays a natural number. *)
Definition section_of_heading (doc : Document) (outline : list Heading.t)
    (i : nat) (heading : Heading.t) : result Sec.t :=
  let start_page := Heading.page heading in
  let end_page :=
    match nth_error outline (i + 1) with
    | Some next => Heading.page next
    | None => List.length doc
    end in
  match read_pages doc
          (Py.range (start_page - 1) (Nat.min end_page (List.length doc))) ""
  with
  | Err e => Err e
  | Ok section_text =>
      let cleaned_text := _clean_text section_text in
      let chunks := chunk_text_200_50 cleaned_text in
      Ok (Sec.mk (Heading.text heading) (Heading.level heading)
            (Heading.page heading) cleaned_text chunks 0 None None)
  end.

Fixpoint sections_loop (doc : Document) (outline : list Heading.t)
    (i : nat) (todo : list Heading.t) (sections : list Sec.t)
  : Logged (list Sec.t) :=
  match todo with
  | [] => ret sections
  | heading :: rest =>
      (sections' <-
         try_except
           (s <- lift (section_of_heading doc outline i heading) ;;
            ret (sections ++ [s])%list)
           (fun e =>
              tell (LogWarning ("Error extracting section "
                                ++ Heading.text heading ++ ": "
                                ++ str_of_exn e)) ;;;
              ret sections) ;;
       sections_loop doc outline (S i) rest sections')%logged
  end.

Definition _extract_full_sections (pdf_path : PdfFile)
    (outline_result : Outline) : Logged (list Sec.t) :=
  try_except
    (doc <- lift (fitz_open pdf_path) ;;
     let outline := outline outline_result in
     sections_loop doc outline 0 outline [])%logged
    (fun e =>
       (tell (LogError ("Error extracting sections from " ++ name pdf_path
                        ++ ": " ++ str_of_exn e)) ;;;
        ret [])%logged).

Definition _calculate_content_boost (text query : string) : Q :=
  let text_lower := Py.lower text in
  let query_lower := Py.lower query in
  let boost := 0.0%Q in
  let boost :=
    if Py.any (map (fun keyword => Py.contains keyword query_lower)
                 ["data"; "methodology"; "analysis"; "research"])
    then
      if Py.any (map (fun keyword => Py.contains keyword text_lower)
                   ["table"; "figure"; "chart"; "graph"; "dataset"])
      then (boost + 0.3)%Q else boost
    else boost in
  let boost :=
    if Py.any (map (fun keyword => Py.contains keyword query_lower)
                 ["revenue"; "profit"; "financial"; "earnings"])
    then
      if Py.any (map (fun keyword => Py.contains keyword text_lower)
                   ["$"; "million"; "billion"; "percentage"; "%"])
      then (boost + 0.2)%Q else boost
    else boost in
  py_min boost 1.0.

Definition _calculate_section_score (section : Sec.t) (similarity : Q)
    (query : string) : Q :=
  let semantic_score := similarity in
  let level_score := dict_get level_weights (Sec.level section) 0.5%Q in
  let content_score := _calculate_content_boost (Sec.text section) query in
  let recency_score := 0.5%Q in
  (semantic_similarity weights * semantic_score
   + level_weight weights * level_score
   + recency_factor weights * recency_score
   + content_boost weights * content_score)%Q.

Record RankResult : Type := mkRankResult {
  extracted_sections : list Sec.t;
  total_sections : nat
}.

(** [enumerate] and the loop that writes the ranks. *)
Fixpoint set_ranks (i : nat) (ranked : list Sec.t) : list Sec.t :=
  match ranked with
  | [] => []
  | section :: rest =>
      Sec.set_importance_rank (i + 1) section :: set_ranks (S i) rest
  end.

Definition relevance_key (x : Sec.t) : result Q :=
  match Sec.relevance_score x with
  | Some q => Ok q
  | None => Err (KeyError "relevance_score")
  end.

Section Ranker.
(** The similarity backend in use, whichever of
    [_calculate_semantic_similarity] and [_calculate_tfidf_similarity] was
    selected when the ranker was built: from the section texts and the
    query to one value per text. *)
Variable similarity_backend : list string -> string -> list Q.

(** The loop that scores the sections. *)
Fixpoint score_sections (similarities : list Q) (persona_query : string)
    (i : nat) (sections : list Sec.t) : result (list Sec.t) :=
  match sections with
  | [] => Ok []
  | section :: rest =>
      match nth_error similarities i with
      | None => Err IndexError
      | Some sim =>
          let score := _calculate_section_score section sim persona_query in
          let section :=
            Sec.set_importance_rank 0
              (Sec.set_relevance_score score section) in
          match score_sections similarities persona_query (S i) rest with
          | Err e => Err e
          | Ok rest' => Ok (section :: rest')
          end
      end
  end.

Definition _rank_sections_by_relevance (sections : list Sec.t)
    (persona_query : string) : result (list Sec.t) :=
  match sections with
  | [] => Ok []
  | _ =>
      let section_texts := map Sec.text sections in
      let similarities := similarity_backend section_texts persona_query in
      match score_sections similarities persona_query 0 sections with
      | Err e => Err e
      | Ok sections =>
          match decorate relevance_key sections with
          | Err e => Err e
          | Ok d =>
              let ranked_sections := map snd (sorted Qltb fst true d) in
              Ok (set_ranks 0 ranked_sections)
          end
      end
  end.

(** The loop of [rank_sections] over the documents. *)
Fixpoint collect_sections (pdf_paths : list PdfFile)
    (all_sections : list Sec.t) : Logged (list Sec.t) :=
  match pdf_paths with
  | [] => ret all_sections
  | pdf_path :: rest =>
      (all_sections' <-
         try_except
           (outline_result <- extract_outline pdf_path ;;
            sections <- _extract_full_sections pdf_path outline_result ;;
            ret (all_sections
                 ++ map (Sec.set_document (name pdf_path)) sections)%list)
           (fun e =>
              tell (LogError ("Error processing " ++ name pdf_path ++ ": "
                              ++ str_of_exn e)) ;;;
              ret all_sections) ;;
       collect_sections rest all_sections')%logged
  end.

(** The key ["processing_time"] of the result is left out. *)
Definition rank_sections (pdf_paths : list PdfFile)
    (persona job_description : string) : Logged RankResult :=
  try_except
    (all_sections <- collect_sections pdf_paths [] ;;
     match all_sections with
     | [] => raise (ValueError "No sections extracted from any PDF")
     | _ =>
         let persona_query := persona ++ ": " ++ job_description in
         ranked_sections <-
           lift (_rank_sections_by_relevance all_sections persona_query) ;;
         ret (mkRankResult (firstn 10 ranked_sections)
                (List.length all_sections))
     end)%logged
    (fun e =>
       (tell (LogError ("Error in ranking sections: " ++ str_of_exn e)) ;;;
        raise e)%logged).

(** ** main.py: the validation gate *)

Inductive Round1A : Type :=
| Round1A_result (result : Outline) (filename : string)
| Round1A_error (error filename : string).

Inductive Round1B : Type :=
| Round1B_result (result : RankResult) (documents : list string)
    (persona job : string)
| Round1B_error (error persona job : string).

(** The keys ["file_hash"] and ["processing_time"] of the metadata are left
    out, and a path is printed as its file name. *)
Definition process_round_1a (pdf_path : PdfFile) : Logged Round1A :=
  try_except
    ((if negb (validate_pdf pdf_path)
      then raise (ValueError ("Invalid PDF file: " ++ name pdf_path))
      else ret tt) ;;;
     result <- extract_outline pdf_path ;;
     ret (Round1A_result result (name pdf_path)))%logged
    (fun e =>
       (tell (LogError ("Error processing " ++ name pdf_path ++ ": "
                        ++ str_of_exn e)) ;;;
        ret (Round1A_error (str_of_exn e) (name pdf_path)))%logged).

(** The loop that validates all PDFs. *)
Fixpoint validate_all (pdf_paths : list PdfFile) (valid_pdfs : list PdfFile)
  : Logged (list PdfFile) :=
  match pdf_paths with
  | [] => ret valid_pdfs
  | pdf_path :: rest =>
      if validate_pdf pdf_path
      then validate_all rest (valid_pdfs ++ [pdf_path])%list
      else
        (tell (LogWarning ("Skipping invalid PDF: " ++ name pdf_path)) ;;;
         validate_all rest valid_pdfs)%logged
  end.

Definition process_round_1b (pdf_paths : list PdfFile)
    (persona job_description : string) : Logged Round1B :=
  try_except
    (valid_pdfs <- validate_all pdf_paths [] ;;
     match valid_pdfs with
     | [] => raise (ValueError "No valid PDFs found")
     | _ =>
         result <- rank_sections valid_pdfs persona job_description ;;
         ret (Round1B_result result (map name valid_pdfs)
                persona job_description)
     end)%logged
    (fun e =>
       (tell (LogError ("Error in Round 1B processing: " ++ str_of_exn e)) ;;;
        ret (Round1B_error (str_of_exn e) persona job_description))%logged).
End Ranker.

(** ** utils.py: [remove_stopwords], [detect_language],
       [clean_json_output] *)

(** The literal set of stopwords.  A Python set is read as the list of its
    elements; only membership is asked of it. *)
Definition basic_stopwords : list string :=
  ["the"; "a"; "an"; "and"; "or"; "but"; "in"; "on"; "at"; "to"; "for";
   "of"; "with"; "by"; "from"; "is"; "are"; "was"; "were"; "be"; "been";
   "have"; "has"; "had"; "do"; "does"; "did"; "will"; "would"; "could";
   "should"; "may"; "might"; "can"; "this"; "that"; "these"; "those"].

(** [word in stopwords]. *)
Definition in_set (word : string) (set : list string) : bool :=
  existsb (String.eqb word) set.

(** [additional_stopwords] is [None] by default; [None] and the empty list
    are both false in the test [if additional_stopwords]. *)
Definition remove_stopwords (text : string)
    (additional_stopwords : option (list string)) : string :=
  let stopwords :=
    match additional_stopwords with
    | Some (w :: ws) => (basic_stopwords ++ w :: ws)%list
    | _ => basic_stopwords
    end in
  let words := Py.split (Py.lower text) in
  let filtered_words :=
    filter (fun word => negb (in_set word stopwords)) words in
  Py.join " " filtered_words.

Definition english_indicators : list string :=
  ["the"; "and"; "or"; "is"; "are"; "was"; "were"; "a"; "an"].

Definition english_count (text : string) : nat :=
  List.length
    (filter (fun word => Py.contains word (Py.lower text))
       english_indicators).

Definition detect_language (text : string) : string :=
  if (3 <? english_count text)%nat then "en" else "unknown".

(** The values [clean_json_output] walks through.  The items of a
    dictionary are kept in insertion order; their keys are distinct. *)
#[local] Set Warnings "-register-all".
Inductive pyval : Type :=
| PNone
| PBool (b : bool)
| PInt (z : Z)
| PFloat (q : Q)
| PStr (s : string)
| PList (l : list pyval)
| PDict (items : list (string * pyval)).

Definition is_none (v : pyval) : bool :=
  match v with PNone => true | _ => false end.

Fixpoint clean_json_output (data : pyval) : pyval :=
  match data with
  | PDict items =>
      PDict
        ((fix clean_items (items : list (string * pyval)) :=
            match items with
            | [] => []
            | (k, v) :: rest =>
                if is_none v then clean_items rest
                else (k, clean_json_output v) :: clean_items rest
            end) items)
  | PList l => PList (map clean_json_output l)
  | PStr s => PStr (Py.strip s)
  | _ => data
  end.

(** * Vocabulary of the statements and sample data *)

(** The window of [max_tokens] words that starts at [start], cut at the end
    of the word sequence and joined by single spaces. *)
Definition window (words : list string) (max_tokens start : Z) : string :=
  Py.join " "
    (Py.slice words start (Z.min (start + max_tokens) (Py.len words))).

Definition text_300_words : string :=
  Py.join " " (map (fun _ => "w") (seq 0 300)).

(** The criterion as the specification words it: at least three characters,
    at least 70% of them uppercase. *)
Definition at_least_70_percent_upper (text : string) : Prop :=
  (3 <= String.length text)%nat
  /\ (7 * String.length text <= 10 * count_upper text)%nat.

Fixpoint all_chars (p : ascii -> bool) (s : string) : bool :=
  match s with
  | EmptyString => true
  | String c s' => p c && all_chars p s'
  end.

Definition non_space (c : ascii) : bool := negb (Py.isspace c).

(** A word: not empty, no whitespace in it. *)
Definition is_word (w : string) : Prop :=
  w <> "" /\ all_chars non_space w = true.

(** The normal form the specification describes: the words of the text with
    one space between them. *)
Definition normalize_ws (text : string) : string :=
  Py.join " " (Py.split text).

(** The texts of the pages numbered [a], ..., [b - 1], pages counted
    from 1. *)
Definition page_interval (doc : Document) (a b : nat) : list string :=
  map page_text (firstn (b - a) (skipn (a - 1) doc)).

(** The bounds as the specification words them: up to, and without, the page
    of the next heading, or through the last page. *)
Definition spec_end_page (doc : Document) (outline : list Heading.t)
    (i : nat) : nat :=
  match nth_error outline (i + 1) with
  | Some next => Heading.page next
  | None => List.length doc + 1
  end.

Definition spec_section_text (doc : Document) (outline : list Heading.t)
    (i : nat) (heading : Heading.t) : string :=
  normalize_ws
    (Py.join nl
       (page_interval doc (Heading.page heading)
          (spec_end_page doc outline i))).

(** The last page the code reads for heading [i]: the page of the next
    heading, or the last page of the document. *)
Definition last_page (doc : Document) (outline : list Heading.t) (i : nat)
  : nat :=
  Nat.min
    (match nth_error outline (i + 1) with
     | Some next => Heading.page next
     | None => List.length doc
     end)
    (List.length doc).

(** Each page text followed by a newline, as the loop accumulates them. *)
Fixpoint concat_nl (texts : list string) : string :=
  match texts with
  | [] => ""
  | t :: rest => t ++ nl ++ concat_nl rest
  end.

Definition two_page_doc : Document :=
  [mkPage [] "alpha"; mkPage [] "beta"].

Definition two_page_file : PdfFile :=
  mkPdfFile "two.pdf" true 2048 (Some two_page_doc).

Definition two_headings : list Heading.t :=
  [Heading.mk "H1" "A" 1; Heading.mk "H1" "B" 2].

Definition example_block (t : string) (p : nat) (y : Q) : Block.t :=
  Block.mk t 12 "Helvetica" 0 (50, y, 200, y + 12)%Q p false y 50 150 12.

(** Three lines in one font: "Intro" on page 1, and on page 2 "Intro" above
    "Other". *)
Definition duplicate_text_blocks : list Block.t :=
  [example_block "Intro" 1 500;
   example_block "Intro" 2 50;
   example_block "Other" 2 100].

(** The position of a block: its page, then its own [y0]. *)
Definition position_key (b : Block.t) : nat * Q :=
  (Block.page b, Block.y_position b).

Definition heading_of_block (median_fontsize : Q) (b : Block.t) : Heading.t :=
  Heading.mk (_determine_heading_level b median_fontsize)
    (Block.text b) (Block.page b).

(** What the specification asks of the heading list: it is the image of the
    candidate blocks laid out in ascending order of their own positions. *)
Definition ordered_by_source_position (blocks : list Block.t)
    (median_fontsize : Q) (headings : list Heading.t) : Prop :=
  exists bs,
    Permutation bs
      (filter (fun b => _is_heading_candidate b median_fontsize) blocks)
    /\ StronglySorted
         (fun a b => key_ltb (position_key b) (position_key a) = false) bs
    /\ headings = map (heading_of_block median_fontsize) bs.

(** The level weights as the specification lists them. *)
Definition spec_level_weight (level : string) : Q :=
  if String.eqb level "H1" then 1.0
  else if String.eqb level "H2" then 0.7
  else if String.eqb level "H3" then 0.4
  else if String.eqb level "title" then 1.2
  else 0.5.

(** The score a section carries, once it has one. *)
Definition score_of (s : Sec.t) : Q :=
  match Sec.relevance_score s with
  | Some q => q
  | None => 0
  end.

(** What the scoring loop does to one section. *)
Definition score_one (persona_query : string) (s : Sec.t) (sim : Q) : Sec.t :=
  Sec.set_importance_rank 0
    (Sec.set_relevance_score (_calculate_section_score s sim persona_query) s).

Definition has_score (v : Q) (s : Sec.t) : bool := Qeq_bool (score_of s) v.

(** The order of the ranking: [b] may follow [a] when its score is not
    above the score of [a]. *)
Definition score_not_above (a b : Sec.t) : Prop :=
  (score_of b <= score_of a)%Q.

Definition Qgtb (a b : Q) : bool := Qltb b a.

(** What one document contributes: its outline, then its sections. *)
Definition document_result (pdf_path : PdfFile) : Logged (list Sec.t) :=
  (outline_result <- extract_outline pdf_path ;;
   _extract_full_sections pdf_path outline_result)%logged.

(** The sections of a document as they enter the ranking; none when the
    document fails. *)
Definition document_sections (pdf_path : PdfFile) : list Sec.t :=
  match fst (document_result pdf_path) with
  | Ok sections => map (Sec.set_document (name pdf_path)) sections
  | Err _ => []
  end.

Definition no_sections_error : exn :=
  ValueError "No sections extracted from any PDF".

Definition example_span (t : string) (y : Q) : Span :=
  mkSpan t 12 "Helvetica" 0 (50, y, 200, y + 12)%Q.

(** A document whose lines are those of [duplicate_text_blocks]. *)
Definition example_doc : Document :=
  [mkPage [TextBlock [[example_span "Intro" 500]]] "Intro alpha";
   mkPage [TextBlock [[example_span "Intro" 50]; [example_span "Other" 100]]]
     "Intro beta Other gamma"].

Definition example_file : PdfFile :=
  mkPdfFile "a.pdf" true 2048 (Some example_doc).

(** A file that [fitz.open] refuses. *)
Definition broken_file : PdfFile := mkPdfFile "b.pdf" true 2048 None.

Definition long_doc : Document := repeat (mkPage [] "") 51.

Definition long_file : PdfFile :=
  mkPdfFile "long.pdf" true 2048 (Some long_doc).

(** The backend that finds no similarity, as both backends do when they
    fail. *)
Definition zero_backend (texts : list string) (query : string) : list Q :=
  map (fun _ => 0%Q) texts.

Definition example_sections : list Sec.t :=
  Eval vm_compute in document_sections example_file.

(** The order a sort by [ltb] on keys produces: [b] may follow [a] when its
    key is not below the key of [a]. *)
Definition not_above {A K} (ltb : K -> K -> bool) (key : A -> K) (a b : A)
  : Prop :=
  ltb (key b) (key a) = false.

(** The sections in discovery order, each with its score and rank 0. *)
Definition scored_sections
    (similarity_backend : list string -> string -> list Q)
    (sections : list Sec.t) (persona_query : string) : list Sec.t :=
  map (fun p => score_one persona_query (fst p) (snd p))
    (combine sections
       (similarity_backend (map Sec.text sections) persona_query)).

(** The words of the window that starts at [start]. *)
Definition window_words (words : list string) (max_tokens start : Z)
  : list string :=
  firstn (Z.to_nat (Z.min (start + max_tokens) (Py.len words) - start))
    (skipn (Z.to_nat start) words).

(** The chunks without their overlaps: the words of the first chunk, then
    of every later chunk the words after the first [overlap] ones. *)
Definition chunks_without_overlap (overlap : Z) (chunks : list string)
  : list string :=
  match chunks with
  | [] => []
  | c :: rest =>
      (Py.split c
       ++ flat_map (fun c => skipn (Z.to_nat overlap) (Py.split c)) rest)%list
  end.

(** A value with nothing left to clean: no dictionary has a [None] value,
    no string has whitespace at either end. *)
Fixpoint is_clean (v : pyval) : Prop :=
  match v with
  | PDict items =>
      (fix all_clean (items : list (string * pyval)) : Prop :=
         match items with
         | [] => True
         | (_, x) :: rest =>
             is_none x = false /\ is_clean x /\ all_clean rest
         end) items
  | PList l =>
      (fix all_clean (l : list pyval) : Prop :=
         match l with
         | [] => True
         | x :: rest => is_clean x /\ all_clean rest
         end) l
  | PStr s => Py.strip s = s
  | _ => True
  end.

(** The items of a cleaned dictionary. *)
Definition clean_items (items : list (string * pyval))
  : list (string * pyval) :=
  map (fun kv => (fst kv, clean_json_output (snd kv)))
    (filter (fun kv => negb (is_none (snd kv))) items).

Definition is_lower_char (c : ascii) : bool := Ascii.eqb (Py.lower_char c) c.

(** A span takes part in its line when its text is more than whitespace. *)
Definition contributes (span : Span) : bool :=
  negb (Py.is_empty (Py.strip (span_text span))).

(** [outer] holds [inner]. *)
Definition bbox_encloses (outer inner : BBox) : Prop :=
  match outer, inner with
  | (a0, a1, a2, a3), (b0, b1, b2, b3) =>
      (a0 <= b0 /\ a1 <= b1 /\ b2 <= a2 /\ b3 <= a3)%Q
  end.

(** Sample data for the further properties. *)
Definition sample_section : Sec.t :=
  Sec.mk "Results" "H2" 3 "Table 2 lists the dataset" [] 0 None None.

Definition sample_json_items : list (string * pyval) :=
  [("title", PStr "  Report ");
   ("error", PNone);
   ("outline", PList [PNone; PDict [("text", PStr " Intro"); ("page", PNone)]])].

Definition sample_json : pyval := PDict sample_json_items.

Definition sample_page : Page :=
  mkPage
    [ImageBlock;
     TextBlock [[mkSpan "  " 30 "Courier" 0 (0, 0, 1, 1)%Q;
                 mkSpan "1. " 12 "Helvetica-Bold" 0 (50, 40, 70, 52)%Q;
                 mkSpan "Scope " 14 "Helvetica" 16 (70, 38, 120, 52)%Q]]]
    "1. Scope".

Definition sample_block : Block.t :=
  Eval vm_compute in
    match _extract_page_blocks sample_page 1 with
    | b :: _ => b
    | [] => example_block "" 0 0
    end.


(** * Properties *)

(** ** The chunker *)

Lemma chunk_body_next words max_tokens overlap start chunks chunks' start' :
  chunk_body words max_tokens overlap start chunks = (chunks', Some start') ->
  start' = start + (max_tokens - overlap)
  /\ start + max_tokens < Py.len words
  /\ chunks' = (chunks ++ [window words max_tokens start])%list.
Proof.
  unfold chunk_body, window.
  rewrite Z.geb_leb.
  destruct (Z.leb_spec (Py.len words)
              (Z.min (start + max_tokens) (Py.len words))) as [Hge | Hlt];
    intros Heq; inversion Heq; subst; clear Heq.
  repeat split; lia.
Qed.

Lemma chunk_body_break words max_tokens overlap start chunks chunks' :
  chunk_body words max_tokens overlap start chunks = (chunks', None) ->
  Py.len words <= start + max_tokens
  /\ chunks' = (chunks ++ [window words max_tokens start])%list.
Proof.
  unfold chunk_body, window.
  rewrite Z.geb_leb.
  destruct (Z.leb_spec (Py.len words)
              (Z.min (start + max_tokens) (Py.len words))) as [Hge | Hlt];
    intros Heq; inversion Heq; subst; clear Heq.
  split; [lia | reflexivity].
Qed.

Lemma map_seq_S {A} (f : nat -> A) (n : nat) :
  map f (seq 0 (S n)) = f O :: map (fun i => f (S i)) (seq 0 n).
Proof.
  simpl. f_equal. rewrite <- seq_shift, map_map. reflexivity.
Qed.

(** With a positive stride the loop started inside the word sequence emits
    the windows at [start], [start + stride], ... and stops at the first one
    that reaches the end; one unit of fuel per remaining word is enough. *)
Lemma chunk_loop_windows fuel : forall words max_tokens overlap start chunks,
  0 <= overlap < max_tokens ->
  start < Py.len words ->
  (Z.to_nat (Py.len words - start) <= fuel)%nat ->
  exists k : nat,
    chunk_loop fuel words max_tokens overlap start chunks
    = Some (chunks
            ++ map (fun i => window words max_tokens
                               (start + Z.of_nat i * (max_tokens - overlap)))
                 (seq 0 (S k)))%list
    /\ (forall i, (i < k)%nat ->
          start + Z.of_nat i * (max_tokens - overlap) + max_tokens
          < Py.len words)
    /\ Py.len words
       <= start + Z.of_nat k * (max_tokens - overlap) + max_tokens.
Proof.
  induction fuel as [| fuel IH]; intros words m o start chunks Hom Hlt Hfuel.
  - lia.
  - cbn [chunk_loop].
    destruct (Z.ltb_spec start (Py.len words)) as [_ | Hge]; [| lia].
    destruct (chunk_body words m o start chunks) as [chunks' [start' |]] eqn:Hb.
    + apply chunk_body_next in Hb. destruct Hb as (-> & Hin & ->).
      destruct (IH words m o (start + (m - o))
                  (chunks ++ [window words m start])%list Hom)
        as (k & Hk & Hfull & Hlast); [lia | lia |].
      exists (S k). split; [| split].
      * rewrite Hk, <- app_assoc. do 2 f_equal.
        rewrite (map_seq_S
                   (fun i => window words m (start + Z.of_nat i * (m - o)))).
        cbn [app]. f_equal.
        -- f_equal. lia.
        -- apply map_ext. intros i. f_equal. lia.
      * intros [| i] Hi.
        -- lia.
        -- specialize (Hfull i ltac:(lia)). lia.
      * lia.
    + apply chunk_body_break in Hb. destruct Hb as (Hend & ->).
      exists O. split; [| split].
      * cbn [seq map]. do 4 f_equal. lia.
      * intros i Hi. lia.
      * lia.
Qed.

(** More fuel than needed changes nothing. *)
Lemma chunk_loop_fuel_mono fuel : forall words m o start chunks r fuel',
  chunk_loop fuel words m o start chunks = Some r ->
  (fuel <= fuel')%nat ->
  chunk_loop fuel' words m o start chunks = Some r.
Proof.
  induction fuel as [| fuel IH]; intros words m o start chunks r fuel' H Hle.
  - discriminate.
  - destruct fuel' as [| fuel']; [lia |].
    cbn [chunk_loop] in *.
    destruct (start <? Py.len words); [| exact H].
    destruct (chunk_body words m o start chunks) as [chunks' [start' |]];
      [| exact H].
    apply IH with (fuel' := fuel') in H; [exact H | lia].
Qed.

Lemma split_nonempty_text text :
  Py.split text <> [] -> Py.is_empty text = false.
Proof.
  destruct text; [intros H; exfalso; apply H; reflexivity | reflexivity].
Qed.

(** A zero stride never leaves the first window. *)
Lemma chunk_loop_zero_stride_diverges fuel : forall chunks,
  chunk_loop fuel ["a"; "b"; "c"] 2 2 0 chunks = None.
Proof.
  induction fuel as [| fuel IH]; intros chunks.
  - reflexivity.
  - cbn [chunk_loop]. change (0 <? Py.len ["a"; "b"; "c"]) with true.
    cbv iota. unfold chunk_body.
    change (Z.min (0 + 2) (Py.len ["a"; "b"; "c"])) with 2.
    change (2 >=? Py.len ["a"; "b"; "c"]) with false.
    cbv iota. apply IH.
Qed.

Lemma chunk_text_windows text max_tokens overlap :
  0 <= overlap < max_tokens ->
  max_tokens < Py.len (Py.split text) ->
  exists k : nat,
    chunk_text text max_tokens overlap
    = Some (map (fun i => window (Py.split text) max_tokens
                            (Z.of_nat i * (max_tokens - overlap)))
              (seq 0 (S k)))
    /\ (forall i, (i < k)%nat ->
          Z.of_nat i * (max_tokens - overlap) + max_tokens
          < Py.len (Py.split text))
    /\ Py.len (Py.split text)
       <= Z.of_nat k * (max_tokens - overlap) + max_tokens.
Proof.
  intros Hom Hlen.
  unfold chunk_text, chunk_text_fuel.
  rewrite split_nonempty_text
    by (intros E; rewrite E in Hlen; cbn in Hlen; lia).
  cbv zeta.
  destruct (Z.leb_spec (Py.len (Py.split text)) max_tokens) as [Hle | _];
    [lia |].
  destruct (chunk_loop_windows (S (List.length (Py.split text)))
              (Py.split text) max_tokens overlap 0 [] Hom)
    as (k & Hk & Hfull & Hlast).
  - lia.
  - unfold Py.len. lia.
  - exists k. rewrite Hk. cbn [app]. auto.
Qed.

(** C5.  Empty text gives no chunk; a text of at most [max_tokens] words is
    its own single chunk; a longer text gives the windows of [max_tokens]
    words at offsets 0, stride, 2 * stride, ... with stride
    [max_tokens - overlap], joined by single spaces, up to and including the
    first window that reaches the end of the words (so every window but the
    last is full, the last may be shorter, and no window is emitted twice);
    a text of 300 words with 200 and 50 gives the two chunks [words[0:200]]
    and [words[150:300]]. *)
Theorem chunk_text_spec :
  (forall max_tokens overlap, chunk_text "" max_tokens overlap = Some [])
  /\ (forall text max_tokens overlap,
        text <> "" ->
        Py.len (Py.split text) <= max_tokens ->
        chunk_text text max_tokens overlap = Some [text])
  /\ (forall text max_tokens overlap,
        0 <= overlap < max_tokens ->
        max_tokens < Py.len (Py.split text) ->
        exists k : nat,
          chunk_text text max_tokens overlap
          = Some (map (fun i => window (Py.split text) max_tokens
                                  (Z.of_nat i * (max_tokens - overlap)))
                    (seq 0 (S k)))
          /\ (forall i, (i < k)%nat ->
                Z.of_nat i * (max_tokens - overlap) + max_tokens
                < Py.len (Py.split text))
          /\ Py.len (Py.split text)
             <= Z.of_nat k * (max_tokens - overlap) + max_tokens)
  /\ (forall text,
        List.length (Py.split text) = 300%nat ->
        chunk_text text 200 50
        = Some [Py.join " " (Py.slice (Py.split text) 0 200);
                Py.join " " (Py.slice (Py.split text) 150 300)]).
Proof.
  split; [| split; [| split]].
  - reflexivity.
  - intros text m o Hne Hle. unfold chunk_text, chunk_text_fuel.
    destruct text; [congruence |]. cbn [Py.is_empty]. cbv zeta.
    destruct (Z.leb_spec (Py.len (Py.split (String a text))) m); [| lia].
    reflexivity.
  - apply chunk_text_windows.
  - intros text H300.
    assert (Hlen : Py.len (Py.split text) = 300)
      by (unfold Py.len; rewrite H300; reflexivity).
    destruct (chunk_text_windows text 200 50) as (k & Hk & Hfull & Hlast);
      [lia | lia |].
    rewrite Hlen in *.
    assert (k = 1%nat) as ->.
    { destruct k as [| [| k]]; [lia | reflexivity |].
      specialize (Hfull 1%nat ltac:(lia)). lia. }
    rewrite Hk. cbn [seq map]. unfold window. rewrite Hlen. reflexivity.
Qed.

Lemma chunk_text_spec_witness :
  chunk_text "one two" 5 2 = Some ["one two"]
  /\ (exists k : nat,
        chunk_text "a b c d e" 2 1
        = Some (map (fun i => window (Py.split "a b c d e") 2
                                (Z.of_nat i * (2 - 1)))
                  (seq 0 (S k)))
        /\ (forall i, (i < k)%nat ->
              Z.of_nat i * (2 - 1) + 2 < Py.len (Py.split "a b c d e"))
        /\ Py.len (Py.split "a b c d e") <= Z.of_nat k * (2 - 1) + 2)
  /\ chunk_text text_300_words 200 50
     = Some [Py.join " " (Py.slice (Py.split text_300_words) 0 200);
             Py.join " " (Py.slice (Py.split text_300_words) 150 300)].
Proof.
  destruct chunk_text_spec as (_ & Hone & Hwin & H300).
  split; [| split].
  - apply (Hone "one two" 5 2); [discriminate | vm_compute; discriminate].
  - apply (Hwin "a b c d e" 2 1); [lia | vm_compute; reflexivity].
  - apply (H300 text_300_words). vm_compute. reflexivity.
Defined.

Lemma chunk_text_fuel_returns text max_tokens overlap :
  0 <= overlap < max_tokens ->
  exists chunks,
    forall fuel, (List.length (Py.split text) <= fuel)%nat ->
      chunk_text_fuel fuel text max_tokens overlap = Some chunks.
Proof.
  intros Hom. unfold chunk_text_fuel.
  destruct (Py.is_empty text); [exists []; reflexivity |].
  cbv zeta.
  destruct (Z.leb_spec (Py.len (Py.split text)) max_tokens) as [Hle | Hgt];
    [exists [text]; reflexivity |].
  destruct (chunk_loop_windows (List.length (Py.split text))
              (Py.split text) max_tokens overlap 0 [] Hom) as (k & Hk & _).
  - lia.
  - unfold Py.len. lia.
  - eexists. intros fuel Hfuel.
    eapply chunk_loop_fuel_mono; [exact Hk | exact Hfuel].
Qed.

(** The parameters of [_extract_full_sections] never exhaust the fuel. *)
Lemma chunk_text_200_50_returns text :
  exists chunks, chunk_text text 200 50 = Some chunks.
Proof.
  destruct (chunk_text_fuel_returns text 200 50) as (chunks & H); [lia |].
  exists chunks. apply H. lia.
Qed.

(** C9.  With [0 < max_tokens] and [0 <= overlap < max_tokens] the loop of
    [chunk_text] ends: a pass that does not leave the loop moves [start]
    forward by exactly [max_tokens - overlap], which is positive, and as much
    fuel as there are words gives the result.  Without [overlap < max_tokens]
    it need not end: with [max_tokens = overlap = 2] and three words no
    amount of fuel gives a result. *)
Theorem chunk_text_terminates :
  (forall text max_tokens overlap,
      0 < max_tokens ->
      0 <= overlap < max_tokens ->
      (forall start chunks chunks' start',
          chunk_body (Py.split text) max_tokens overlap start chunks
          = (chunks', Some start') ->
          start' - start = max_tokens - overlap /\ start < start')
      /\ exists chunks,
          forall fuel, (List.length (Py.split text) <= fuel)%nat ->
            chunk_text_fuel fuel text max_tokens overlap = Some chunks)
  /\ (forall fuel, chunk_text_fuel fuel "a b c" 2 2 = None).
Proof.
  split.
  - intros text m o Hm Hom. split.
    + intros start chunks chunks' start' Hb.
      apply chunk_body_next in Hb. lia.
    + apply chunk_text_fuel_returns. exact Hom.
  - intros fuel. unfold chunk_text_fuel.
    change (Py.is_empty "a b c") with false. cbv iota zeta.
    change (Py.split "a b c") with ["a"; "b"; "c"].
    change (Py.len ["a"; "b"; "c"] <=? 2) with false. cbv iota.
    apply chunk_loop_zero_stride_diverges.
Qed.

Lemma chunk_text_terminates_witness :
  exists chunks,
    forall fuel, (List.length (Py.split "a b c d e") <= fuel)%nat ->
      chunk_text_fuel fuel "a b c d e" 2 1 = Some chunks.
Proof.
  apply (proj1 chunk_text_terminates "a b c d e" 2 1); lia.
Defined.

(** ** The stable sort *)

Section SortFacts.
Context {A K : Type}.
Variable ltb : K -> K -> bool.
Variable key : A -> K.

Lemma insert_by_perm x l : Permutation (insert_by ltb key x l) (x :: l).
Proof.
  induction l as [| y l IH]; cbn [insert_by].
  - apply Permutation_refl.
  - destruct (ltb (key y) (key x)).
    + eapply perm_trans; [apply perm_skip, IH | apply perm_swap].
    + apply Permutation_refl.
Qed.

Lemma sort_by_perm l : Permutation (sort_by ltb key l) l.
Proof.
  induction l as [| x l IH]; cbn [sort_by].
  - apply perm_nil.
  - eapply perm_trans; [apply insert_by_perm | apply perm_skip, IH].
Qed.

(** A filter that never keeps two elements of which the first is below the
    second sees the same list before and after: elements that compare equal
    keep their order. *)
Section Stable.
Variable f : A -> bool.
Hypothesis f_class :
  forall a b, f a = true -> f b = true -> ltb (key a) (key b) = false.

Lemma insert_by_filter x l :
  filter f (insert_by ltb key x l) = filter f (x :: l).
Proof.
  induction l as [| y l IH]; cbn [insert_by]; [reflexivity |].
  destruct (ltb (key y) (key x)) eqn:Hlt; [| reflexivity].
  cbn [filter] in *. rewrite IH.
  destruct (f x) eqn:Hx, (f y) eqn:Hy; try reflexivity.
  rewrite (f_class y x Hy Hx) in Hlt. discriminate.
Qed.

Lemma sort_by_filter l : filter f (sort_by ltb key l) = filter f l.
Proof.
  induction l as [| x l IH]; cbn [sort_by]; [reflexivity |].
  rewrite insert_by_filter. cbn [filter]. rewrite IH. reflexivity.
Qed.
End Stable.

(** The result is ordered when [ltb] is asymmetric and its complement is
    transitive. *)
Section Ordered.
Hypothesis ltb_asym : forall a b, ltb a b = true -> ltb b a = false.
Hypothesis geb_trans :
  forall a b c, ltb b a = false -> ltb c b = false -> ltb c a = false.

Lemma insert_by_sorted x l :
  StronglySorted (not_above ltb key) l ->
  StronglySorted (not_above ltb key) (insert_by ltb key x l).
Proof.
  induction 1 as [| y l Hs IH Hall]; cbn [insert_by].
  - constructor; constructor.
  - destruct (ltb (key y) (key x)) eqn:Hlt.
    + constructor; [exact IH |].
      eapply Permutation_Forall.
      * apply Permutation_sym, insert_by_perm.
      * constructor; [apply ltb_asym, Hlt | exact Hall].
    + constructor; [constructor; assumption |].
      constructor; [exact Hlt |].
      eapply Forall_impl; [| exact Hall].
      intros z Hz. unfold not_above in *.
      eapply geb_trans; eassumption.
Qed.

Lemma sort_by_sorted l : StronglySorted (not_above ltb key) (sort_by ltb key l).
Proof.
  induction l as [| x l IH]; cbn [sort_by].
  - constructor.
  - apply insert_by_sorted, IH.
Qed.
End Ordered.
End SortFacts.

(** ** Numbers *)

Lemma Qltb_lt a b : Qltb a b = true <-> (a < b)%Q.
Proof.
  unfold Qltb. rewrite negb_true_iff. split.
  - intros H. apply Qnot_le_lt. intros Hle.
    apply Qle_bool_iff in Hle. congruence.
  - intros H. destruct (Qle_bool b a) eqn:E; [| reflexivity].
    apply Qle_bool_iff in E. exfalso. exact (Qlt_not_le _ _ H E).
Qed.

Lemma Qleb_le a b : Qleb a b = true <-> (a <= b)%Q.
Proof. apply Qle_bool_iff. Qed.

(** ** The uppercase heuristic *)

Lemma ratio_above_70_percent (c l : nat) :
  (0 < l)%nat ->
  (0.7 < inject_Z (Z.of_nat c) / inject_Z (Z.of_nat l))%Q
  <-> (7 * l < 10 * c)%nat.
Proof.
  intros Hl.
  assert (Hpos : (0 < inject_Z (Z.of_nat l))%Q).
  { unfold Qlt. cbn. lia. }
  assert (Hmul : (0.7 * inject_Z (Z.of_nat l) < inject_Z (Z.of_nat c))%Q
                 <-> (7 * l < 10 * c)%nat).
  { unfold Qlt, Qmult, inject_Z. cbn [Qnum Qden].
    rewrite Pos.mul_1_r. lia. }
  rewrite <- Hmul. split.
  - intros H. apply (Qmult_lt_r _ _ _ Hpos) in H.
    setoid_replace (inject_Z (Z.of_nat c) / inject_Z (Z.of_nat l)
                    * inject_Z (Z.of_nat l))%Q
      with (inject_Z (Z.of_nat c)) in H; [exact H |].
    field. intros E. rewrite E in Hpos. discriminate.
  - intros H. apply Qlt_shift_div_l; assumption.
Qed.

(** C7, as the code has it.  The uppercase criterion holds exactly when the
    text has at least three characters and strictly more than 70% of them
    are uppercase. *)
Theorem is_capitalized_iff_above_70_percent text :
  _is_capitalized text = true
  <-> (3 <= String.length text)%nat
      /\ (7 * String.length text < 10 * count_upper text)%nat.
Proof.
  unfold _is_capitalized.
  destruct (Nat.ltb_spec (String.length text) 3) as [Hshort | Hlong].
  - split; [discriminate | lia].
  - rewrite Qltb_lt, ratio_above_70_percent by lia. intuition lia.
Qed.

(** C7 as stated fails: a text of ten characters with exactly seven
    uppercase ones has 70% of them uppercase and is not accepted. *)
Lemma is_capitalized_at_70_percent_rejected :
  String.length "ABCDEFGhij" = 10%nat
  /\ count_upper "ABCDEFGhij" = 7%nat
  /\ at_least_70_percent_upper "ABCDEFGhij"
  /\ _is_capitalized "ABCDEFGhij" = false
  /\ ~ (forall text,
          _is_capitalized text = true <-> at_least_70_percent_upper text).
Proof.
  assert (Hspec : at_least_70_percent_upper "ABCDEFGhij")
    by (unfold at_least_70_percent_upper; cbn; lia).
  repeat split; try reflexivity; try (apply Hspec).
  intros H. apply H in Hspec. vm_compute in Hspec. discriminate.
Qed.

(** ** Uniform font size *)

Lemma nth_all_Qeq (l : list Q) (s : Q) (i : nat) :
  Forall (fun x => x == s)%Q l -> (i < List.length l)%nat ->
  (nth i l 0 == s)%Q.
Proof.
  intros Hall Hi. rewrite Forall_forall in Hall.
  apply Hall, nth_In, Hi.
Qed.

Lemma median_uniform (data : list Q) (s : Q) :
  data <> [] ->
  Forall (fun x => x == s)%Q data ->
  exists m, median data = Ok m /\ (m == s)%Q.
Proof.
  intros Hne Hall. unfold median, sorted.
  set (srt := sort_by Qltb (fun x => x) data).
  assert (Hperm : Permutation srt data) by apply sort_by_perm.
  assert (Hlen : List.length srt = List.length data)
    by (apply Permutation_length, Hperm).
  assert (Hall' : Forall (fun x => x == s)%Q srt)
    by (eapply Permutation_Forall; [apply Permutation_sym, Hperm | exact Hall]).
  assert (Hpos : (0 < List.length srt)%nat).
  { rewrite Hlen. destruct data; [congruence | cbn; lia]. }
  assert (Hhalf : (List.length srt / 2 < List.length srt)%nat)
    by (apply Nat.div_lt; lia).
  destruct (Nat.eqb_spec (List.length srt) 0) as [E | _]; [lia |].
  destruct (Nat.eqb_spec (List.length srt mod 2) 1) as [_ | _].
  - eexists. split; [reflexivity |]. apply nth_all_Qeq; assumption.
  - eexists. split; [reflexivity |].
    pose proof (nth_all_Qeq srt s (List.length srt / 2 - 1) Hall'
                  ltac:(lia)) as H1.
    pose proof (nth_all_Qeq srt s (List.length srt / 2) Hall' Hhalf) as H2.
    rewrite H1, H2. field.
Qed.

(** C8.  When all blocks of a document have the same positive font size,
    the median is that size, every block has font ratio 1, which meets the
    threshold [min_heading_font_ratio] at equality, and so every block is a
    heading candidate. *)
Theorem uniform_font_all_candidates (blocks : list Block.t) (s : Q) :
  (0 < s)%Q ->
  blocks <> [] ->
  (forall b, In b blocks -> (Block.fontsize b == s)%Q) ->
  exists median_fontsize,
    median (filter (fun x => Qltb 0 x) (map Block.fontsize blocks))
    = Ok median_fontsize
    /\ (median_fontsize == s)%Q
    /\ (forall b, In b blocks ->
          (Block.fontsize b / median_fontsize == 1)%Q
          /\ Qleb min_heading_font_ratio
               (Block.fontsize b / median_fontsize) = true
          /\ _is_heading_candidate b median_fontsize = true)
    /\ filter (fun b => _is_heading_candidate b median_fontsize) blocks
       = blocks.
Proof.
  intros Hs Hne Hall.
  assert (Hkeep : filter (fun x => Qltb 0 x) (map Block.fontsize blocks)
                  = map Block.fontsize blocks).
  { apply forallb_filter_id. rewrite forallb_forall. intros x Hx.
    apply in_map_iff in Hx. destruct Hx as (b & <- & Hb).
    apply Qltb_lt. rewrite (Hall b Hb). exact Hs. }
  rewrite Hkeep.
  destruct (median_uniform (map Block.fontsize blocks) s)
    as (m & Hm & Hms).
  - destruct blocks; [congruence | discriminate].
  - rewrite Forall_forall. intros x Hx.
    apply in_map_iff in Hx. destruct Hx as (b & <- & Hb). auto.
  - exists m. split; [exact Hm |]. split; [exact Hms |].
    assert (Hcand : forall b, In b blocks ->
              (Block.fontsize b / m == 1)%Q
              /\ Qleb min_heading_font_ratio (Block.fontsize b / m) = true
              /\ _is_heading_candidate b m = true).
    { intros b Hb.
      assert (Hratio : (Block.fontsize b / m == 1)%Q).
      { rewrite (Hall b Hb), Hms. field.
        intros E. rewrite E in Hs. discriminate. }
      assert (Hthr : Qleb min_heading_font_ratio (Block.fontsize b / m)
                     = true).
      { apply Qleb_le. rewrite Hratio. unfold min_heading_font_ratio.
        unfold Qle. cbn. lia. }
      repeat split; try assumption.
      unfold _is_heading_candidate, Py.any. cbn [existsb].
      rewrite Hthr. reflexivity. }
    split; [exact Hcand |].
    apply forallb_filter_id. rewrite forallb_forall.
    intros b Hb. apply Hcand, Hb.
Qed.

(** ** Strings and whitespace *)

Lemma str_app_nil_r (s : string) : s ++ "" = s.
Proof. induction s as [| c s IH]; cbn; [reflexivity | now rewrite IH]. Qed.

Lemma str_app_assoc (a b c : string) : (a ++ b) ++ c = a ++ b ++ c.
Proof. induction a as [| x a IH]; cbn; [reflexivity | now rewrite IH]. Qed.

Lemma all_chars_app p a b :
  all_chars p (a ++ b) = all_chars p a && all_chars p b.
Proof.
  induction a as [| x a IH]; cbn; [reflexivity |].
  now rewrite IH, andb_assoc.
Qed.

Lemma all_chars_impl (p q : ascii -> bool) s :
  (forall c, p c = true -> q c = true) ->
  all_chars p s = true -> all_chars q s = true.
Proof.
  intros Hpq. induction s as [| c s IH]; cbn; [reflexivity |].
  rewrite !andb_true_iff. intros [Hc Hs]. auto.
Qed.

Lemma split_from_words s : forall cur,
  all_chars non_space cur = true -> Forall is_word (Py.split_from cur s).
Proof.
  induction s as [| c s IH]; intros cur Hcur; cbn [Py.split_from].
  - destruct cur; cbn [Py.is_empty]; constructor; [| constructor].
    split; [discriminate | exact Hcur].
  - destruct (Py.isspace c) eqn:Hc.
    + destruct cur; cbn [Py.is_empty].
      * apply IH. reflexivity.
      * constructor; [split; [discriminate | exact Hcur] |].
        apply IH. reflexivity.
    + apply IH. rewrite all_chars_app, Hcur. cbn. unfold non_space.
      now rewrite Hc.
Qed.

Lemma split_words text : Forall is_word (Py.split text).
Proof. apply split_from_words. reflexivity. Qed.

(** Whitespace at the very end adds no word. *)
Lemma split_from_trailing_space s c : forall cur,
  Py.isspace c = true ->
  Py.split_from cur (s ++ String c "") = Py.split_from cur s.
Proof.
  induction s as [| x s IH]; intros cur Hc; cbn [append Py.split_from].
  - rewrite Hc. destruct cur; reflexivity.
  - destruct (Py.isspace x); [destruct (Py.is_empty cur) |];
      rewrite IH by exact Hc; reflexivity.
Qed.

Lemma join_chars p ws :
  p space = true ->
  Forall (fun w => all_chars p w = true) ws ->
  all_chars p (Py.join " " ws) = true.
Proof.
  intros Hsp. induction 1 as [| w ws Hw Hws IH]; [reflexivity |].
  unfold Py.join in *. cbn [String.concat].
  destruct ws as [| w' ws']; [exact Hw |].
  rewrite !all_chars_app, Hw, IH. cbn. unfold space in Hsp. now rewrite Hsp.
Qed.

Lemma replace_char_id a b s :
  all_chars (fun c => negb (Ascii.eqb c a)) s = true ->
  Py.replace_char a b s = s.
Proof.
  induction s as [| c s IH]; cbn; [reflexivity |].
  rewrite andb_true_iff, negb_true_iff. intros [Hc Hs].
  now rewrite Hc, IH.
Qed.

Lemma word_snoc w :
  is_word w -> exists s c, w = s ++ String c "" /\ Py.isspace c = false.
Proof.
  induction w as [| a w IH]; intros [Hne Hall]; [congruence |].
  cbn in Hall. apply andb_true_iff in Hall. destruct Hall as [Ha Hw].
  destruct w as [| b w].
  - exists "", a. split; [reflexivity |].
    unfold non_space in Ha. now apply negb_true_iff in Ha.
  - destruct IH as (s & c & Hs & Hc); [split; [discriminate | exact Hw] |].
    exists (String a s), c. cbn. now rewrite <- Hs.
Qed.

Lemma join_words_head ws :
  Forall is_word ws -> ws <> [] ->
  exists c s, Py.join " " ws = String c s /\ Py.isspace c = false.
Proof.
  intros Hall Hne. destruct Hall as [| w ws [Hw Hchars] _]; [congruence |].
  destruct w as [| c w]; [congruence |].
  cbn in Hchars. apply andb_true_iff in Hchars. destruct Hchars as [Hc _].
  unfold non_space in Hc. apply negb_true_iff in Hc.
  unfold Py.join. cbn [String.concat].
  destruct ws; cbn; eauto.
Qed.

Lemma join_words_snoc ws :
  Forall is_word ws -> ws <> [] ->
  exists s c, Py.join " " ws = s ++ String c "" /\ Py.isspace c = false.
Proof.
  induction 1 as [| w ws Hw Hws IH]; intros Hne; [congruence |].
  unfold Py.join in *. cbn [String.concat].
  destruct ws as [| w' ws'].
  - apply word_snoc, Hw.
  - destruct IH as (s & c & Hs & Hc); [discriminate |].
    exists (w ++ " " ++ s), c. rewrite Hs, !str_app_assoc. auto.
Qed.

Lemma rstrip_snoc s c :
  Py.isspace c = false -> Py.rstrip (s ++ String c "") = s ++ String c "".
Proof.
  intros Hc. induction s as [| a s IH]; cbn [append Py.rstrip].
  - cbn. now rewrite Hc.
  - rewrite IH. destruct s; reflexivity.
Qed.

(** After the split and join of [_clean_text] the two replacements and the
    strip find nothing to do. *)
Lemma clean_text_normalizes text : _clean_text text = normalize_ws text.
Proof.
  unfold _clean_text, normalize_ws.
  pose proof (split_words text) as Hwords.
  set (ws := Py.split text) in *.
  assert (Hnl : all_chars (fun c => negb (Ascii.eqb c newline))
                  (Py.join " " ws) = true).
  { apply join_chars; [reflexivity |].
    eapply Forall_impl; [| exact Hwords]. intros w [_ Hw].
    eapply all_chars_impl; [| exact Hw]. intros c Hc.
    destruct (Ascii.eqb_spec c newline) as [-> | _];
      [discriminate | reflexivity]. }
  assert (Htab : all_chars (fun c => negb (Ascii.eqb c tab))
                   (Py.join " " ws) = true).
  { apply join_chars; [reflexivity |].
    eapply Forall_impl; [| exact Hwords]. intros w [_ Hw].
    eapply all_chars_impl; [| exact Hw]. intros c Hc.
    destruct (Ascii.eqb_spec c tab) as [-> | _];
      [discriminate | reflexivity]. }
  rewrite (replace_char_id newline) by exact Hnl.
  rewrite (replace_char_id tab) by exact Htab.
  destruct ws as [| w ws'] eqn:Ews; [reflexivity |].
  rewrite <- Ews in *.
  assert (Hne : ws <> []) by (rewrite Ews; discriminate).
  unfold Py.strip.
  destruct (join_words_head ws Hwords Hne) as (c & s & Hhead & Hc).
  assert (Hl : Py.lstrip (Py.join " " ws) = Py.join " " ws).
  { rewrite Hhead. cbn. now rewrite Hc. }
  rewrite Hl.
  destruct (join_words_snoc ws Hwords Hne) as (s' & c' & Hlast & Hc').
  rewrite Hlast. apply rstrip_snoc, Hc'.
Qed.

(** ** Section segmentation *)

Lemma skipn_nth_error {A} (l : list A) : forall a x,
  nth_error l a = Some x -> skipn a l = x :: skipn (S a) l.
Proof.
  induction l as [| y l IH]; intros [| a] x H; cbn in *; try discriminate.
  - now inversion H.
  - now apply IH.
Qed.

Lemma read_pages_seq doc : forall k a acc,
  (0 < k -> a + k <= List.length doc)%nat ->
  read_pages doc (seq a k) acc
  = Ok (acc ++ concat_nl (map page_text (firstn k (skipn a doc)))).
Proof.
  induction k as [| k IH]; intros a acc Hk; cbn [seq read_pages].
  - cbn. now rewrite str_app_nil_r.
  - unfold get_page_text.
    destruct (nth_error doc a) as [p |] eqn:Hp.
    + rewrite IH by lia.
      rewrite (skipn_nth_error doc a p Hp). cbn [firstn map concat_nl].
      now rewrite !str_app_assoc.
    + apply nth_error_None in Hp. lia.
Qed.

Lemma concat_nl_join texts :
  texts <> [] -> concat_nl texts = Py.join nl texts ++ nl.
Proof.
  induction texts as [| t rest IH]; intros Hne; [congruence |].
  unfold Py.join in *. cbn [concat_nl String.concat].
  destruct rest as [| t' rest'].
  - reflexivity.
  - rewrite IH by discriminate. now rewrite !str_app_assoc.
Qed.

Lemma normalize_concat_nl texts :
  normalize_ws (concat_nl texts) = normalize_ws (Py.join nl texts).
Proof.
  destruct texts as [| t rest]; [reflexivity |].
  rewrite concat_nl_join by discriminate.
  unfold normalize_ws, Py.split, nl.
  now rewrite split_from_trailing_space.
Qed.

Lemma section_of_heading_text doc outline i heading :
  (1 <= Heading.page heading)%nat ->
  exists s,
    section_of_heading doc outline i heading = Ok s
    /\ Sec.section_title s = Heading.text heading
    /\ Sec.level s = Heading.level heading
    /\ Sec.page s = Heading.page heading
    /\ Sec.text s
       = normalize_ws
           (Py.join nl
              (page_interval doc (Heading.page heading)
                 (last_page doc outline i + 1))).
Proof.
  intros Hpage. unfold section_of_heading, Py.range.
  fold (last_page doc outline i).
  rewrite read_pages_seq.
  - eexists. split; [reflexivity |].
    cbn [Sec.text Sec.section_title Sec.level Sec.page append].
    repeat split.
    rewrite clean_text_normalizes, normalize_concat_nl.
    unfold page_interval.
    replace (last_page doc outline i + 1 - Heading.page heading)%nat
      with (last_page doc outline i - (Heading.page heading - 1))%nat by lia.
    reflexivity.
  - unfold last_page. lia.
Qed.

Lemma sections_loop_all doc outline : forall todo i sections,
  Forall (fun h => 1 <= Heading.page h)%nat todo ->
  exists new,
    sections_loop doc outline i todo sections = (Ok (sections ++ new)%list, [])
    /\ List.length new = List.length todo
    /\ forall j heading, nth_error todo j = Some heading ->
         exists s, nth_error new j = Some s
                   /\ section_of_heading doc outline (i + j) heading = Ok s.
Proof.
  induction todo as [| heading rest IH]; intros i sections Hpages.
  - exists []. cbn. rewrite app_nil_r. repeat split.
    intros [| j] h Hj; discriminate.
  - inversion Hpages as [| ? ? Hp Hrest]; subst.
    destruct (section_of_heading_text doc outline i heading Hp)
      as (s & Hs & _).
    destruct (IH (S i) (sections ++ [s])%list Hrest)
      as (new & Hloop & Hlen & Hnth).
    exists (s :: new). cbn [sections_loop].
    rewrite Hs. cbn. rewrite Hloop. cbn.
    rewrite <- app_assoc. repeat split.
    + cbn. now rewrite Hlen.
    + intros [| j] h Hj; cbn in Hj.
      * inversion Hj; subst. exists s. rewrite Nat.add_0_r. auto.
      * destruct (Hnth j h Hj) as (s' & Hs' & Hsec).
        exists s'. split; [exact Hs' |].
        now replace (i + S j)%nat with (S i + j)%nat by lia.
Qed.

(** C2, as the code has it.  For a document that opens and headings on
    pages numbered from 1, there is one section per heading, in heading
    order, and the text of the section of heading [i] is the whitespace
    normal form of the newline-joined texts of the pages from the heading's
    own page through [last_page], the page of the next heading (or the last
    page of the document), that page included. *)
Theorem extract_full_sections_text pdf_path doc title outline :
  fitz_open pdf_path = Ok doc ->
  Forall (fun h => 1 <= Heading.page h)%nat outline ->
  exists sections,
    _extract_full_sections pdf_path (mkOutline title outline)
    = (Ok sections, [])
    /\ List.length sections = List.length outline
    /\ forall i heading, nth_error outline i = Some heading ->
         exists s,
           nth_error sections i = Some s
           /\ Sec.section_title s = Heading.text heading
           /\ Sec.text s
              = normalize_ws
                  (Py.join nl
                     (page_interval doc (Heading.page heading)
                        (last_page doc outline i + 1))).
Proof.
  intros Hopen Hpages. unfold _extract_full_sections.
  rewrite Hopen. cbn.
  destruct (sections_loop_all doc outline outline 0 [] Hpages)
    as (new & Hloop & Hlen & Hnth).
  rewrite Hloop. cbn. exists new. repeat split; [exact Hlen |].
  intros i heading Hi.
  destruct (Hnth i heading Hi) as (s & Hs & Hsec). cbn in Hsec.
  assert (Hp : (1 <= Heading.page heading)%nat).
  { rewrite Forall_forall in Hpages. eapply Hpages, nth_error_In, Hi. }
  destruct (section_of_heading_text doc outline i heading Hp)
    as (s' & Hs' & Htitle & _ & _ & Htext).
  rewrite Hsec in Hs'. inversion Hs'; subst s'.
  exists s. repeat split; assumption.
Qed.

Lemma extract_full_sections_text_witness :
  exists sections,
    _extract_full_sections two_page_file (mkOutline "A" two_headings)
    = (Ok sections, [])
    /\ List.length sections = List.length two_headings
    /\ forall i heading, nth_error two_headings i = Some heading ->
         exists s,
           nth_error sections i = Some s
           /\ Sec.section_title s = Heading.text heading
           /\ Sec.text s
              = normalize_ws
                  (Py.join nl
                     (page_interval two_page_doc (Heading.page heading)
                        (last_page two_page_doc two_headings i + 1))).
Proof.
  apply (extract_full_sections_text two_page_file two_page_doc "A"
           two_headings).
  - reflexivity.
  - repeat constructor.
Defined.

(** C2 as stated fails: with a heading on page 1 and the next one on page 2
    the half-open interval holds page 1 alone, and the section built for the
    first heading holds the text of page 2 as well. *)
Lemma section_text_reads_next_heading_page :
  spec_section_text two_page_doc two_headings 0 (Heading.mk "H1" "A" 1)
  = "alpha"
  /\ exists sections s,
       _extract_full_sections two_page_file (mkOutline "A" two_headings)
       = (Ok sections, [])
       /\ nth_error sections 0 = Some s
       /\ Sec.text s = "alpha beta"
       /\ Sec.text s
          <> spec_section_text two_page_doc two_headings 0
               (Heading.mk "H1" "A" 1).
Proof.
  split; [reflexivity |].
  eexists. eexists.
  split; [vm_compute; reflexivity |].
  split; [reflexivity |].
  split; [reflexivity |].
  vm_compute. discriminate.
Qed.

(** ** Heading order *)

Lemma uniform_font_all_candidates_witness :
  exists median_fontsize,
    median (filter (fun x => Qltb 0 x)
              (map Block.fontsize duplicate_text_blocks))
    = Ok median_fontsize
    /\ (median_fontsize == 12)%Q
    /\ (forall b, In b duplicate_text_blocks ->
          (Block.fontsize b / median_fontsize == 1)%Q
          /\ Qleb min_heading_font_ratio
               (Block.fontsize b / median_fontsize) = true
          /\ _is_heading_candidate b median_fontsize = true)
    /\ filter (fun b => _is_heading_candidate b median_fontsize)
         duplicate_text_blocks
       = duplicate_text_blocks.
Proof.
  apply (uniform_font_all_candidates duplicate_text_blocks 12).
  - reflexivity.
  - discriminate.
  - intros b [<- | [<- | [<- | []]]]; reflexivity.
Defined.

(** C1, at the failing input.  The key of a heading is looked up by text, so
    the second "Intro" gets the [y0] of the first one (500) and is placed
    after "Other" (100), although its own line (50) is above it: the list
    that is returned is not in the order of the source positions. *)
Theorem extract_headings_duplicate_text_misordered :
  _extract_headings duplicate_text_blocks 12
  = Ok [Heading.mk "H3" "Intro" 1;
        Heading.mk "H3" "Other" 2;
        Heading.mk "H3" "Intro" 2]
  /\ heading_sort_key duplicate_text_blocks (Heading.mk "H3" "Intro" 2)
     = Ok (2%nat, 500%Q)
  /\ ~ ordered_by_source_position duplicate_text_blocks 12
         [Heading.mk "H3" "Intro" 1;
          Heading.mk "H3" "Other" 2;
          Heading.mk "H3" "Intro" 2].
Proof.
  assert (Hrun : _extract_headings duplicate_text_blocks 12
                 = Ok [Heading.mk "H3" "Intro" 1;
                       Heading.mk "H3" "Other" 2;
                       Heading.mk "H3" "Intro" 2])
    by (vm_compute; reflexivity).
  split; [exact Hrun |]. split; [vm_compute; reflexivity |].
  intros (bs & Hperm & Hsorted & Hmap).
  change (filter (fun b => _is_heading_candidate b 12) duplicate_text_blocks)
    with duplicate_text_blocks in Hperm.
  destruct bs as [| b1 [| b2 [| b3 [| b4 bs]]]]; try discriminate.
  pose proof (f_equal (map Heading.text) Hmap) as Htexts.
  pose proof (f_equal (map Heading.page) Hmap) as Hpages.
  cbn in Htexts, Hpages.
  injection Htexts as Ht1 Ht2 Ht3. injection Hpages as Hp1 Hp2 Hp3.
  assert (Hin2 : In b2 duplicate_text_blocks)
    by (eapply Permutation_in; [exact Hperm | cbn; auto]).
  assert (Hin3 : In b3 duplicate_text_blocks)
    by (eapply Permutation_in; [exact Hperm | cbn; auto]).
  assert (E2 : b2 = example_block "Other" 2 100).
  { destruct Hin2 as [<- | [<- | [<- | []]]];
      cbn in Ht2; try discriminate Ht2. reflexivity. }
  assert (E3 : b3 = example_block "Intro" 2 50).
  { destruct Hin3 as [<- | [<- | [<- | []]]];
      cbn in Ht3, Hp3; try discriminate Ht3; try discriminate Hp3.
    reflexivity. }
  subst b2 b3.
  inversion Hsorted as [| ? ? Hs1 _]; subst.
  inversion Hs1 as [| ? ? _ Hall]; subst.
  inversion Hall as [| ? ? Hbad _]; subst.
  vm_compute in Hbad. discriminate.
Qed.

(** ** The sort of the headings never raises *)

Lemma Qeq_bool_refl' (a : Q) : Qeq_bool a a = true.
Proof. apply Qeq_bool_iff, Qeq_refl. Qed.

Lemma block_eqb_refl (b : Block.t) : block_eqb b b = true.
Proof.
  unfold block_eqb, bbox_eqb.
  destruct (Block.bbox b) as [[[x0 y0] x1] y1].
  rewrite !String.eqb_refl, !Qeq_bool_refl', Z.eqb_refl, Nat.eqb_refl,
    Bool.eqb_reflx.
  reflexivity.
Qed.

Lemma index_in b : forall blocks,
  In b blocks ->
  exists i b', index b blocks = Some i /\ nth_error blocks i = Some b'.
Proof.
  induction blocks as [| x blocks IH]; intros Hin; [contradiction |].
  cbn [index]. destruct (block_eqb x b) eqn:E.
  - exists O, x. auto.
  - destruct Hin as [-> | Hin]; [rewrite block_eqb_refl in E; discriminate |].
    destruct (IH Hin) as (i & b' & Hi & Hb').
    exists (S i), b'. rewrite Hi. auto.
Qed.

Lemma heading_sort_key_ok blocks (x : Heading.t) :
  (exists b, In b blocks /\ Block.text b = Heading.text x) ->
  exists k, heading_sort_key blocks x = Ok k /\ fst k = Heading.page x.
Proof.
  intros (b & Hin & Htext). unfold heading_sort_key.
  destruct (find _ blocks) as [b0 |] eqn:Hfind.
  - apply find_some in Hfind. destruct Hfind as [Hin0 _].
    destruct (index_in b0 blocks Hin0) as (i & b' & Hi & Hb').
    rewrite Hi, Hb'. eexists. split; reflexivity.
  - exfalso. apply (find_none _ _ Hfind) in Hin.
    rewrite Htext, String.eqb_refl in Hin. discriminate.
Qed.

Lemma decorate_ok {A K} (key : A -> result K) : forall l,
  Forall (fun x => exists k, key x = Ok k) l ->
  exists d, decorate key l = Ok d /\ map snd d = l.
Proof.
  induction 1 as [| x l (k & Hk) _ (d & Hd & Hsnd)]; cbn [decorate].
  - exists []. auto.
  - rewrite Hk, Hd. exists ((k, x) :: d). cbn. now rewrite Hsnd.
Qed.

(** [_extract_headings] returns the headings of the candidate blocks in
    some order. *)
Lemma extract_headings_ok blocks median_fontsize :
  exists headings,
    _extract_headings blocks median_fontsize = Ok headings
    /\ Permutation headings
         (map (heading_of_block median_fontsize)
            (filter (fun b => _is_heading_candidate b median_fontsize)
               blocks)).
Proof.
  unfold _extract_headings. fold (heading_of_block median_fontsize).
  set (cands := filter _ blocks).
  destruct (decorate_ok (heading_sort_key blocks)
              (map (heading_of_block median_fontsize) cands))
    as (d & Hd & Hsnd).
  - rewrite Forall_forall. intros h Hh.
    apply in_map_iff in Hh. destruct Hh as (b & <- & Hb).
    apply filter_In in Hb. destruct Hb as [Hb _].
    destruct (heading_sort_key_ok blocks
                (heading_of_block median_fontsize b)) as (k & Hk & _);
      [exists b; auto | eauto].
  - rewrite Hd. eexists. split; [reflexivity |].
    rewrite <- Hsnd. apply Permutation_map. unfold sorted.
    apply sort_by_perm.
Qed.

Lemma block_of_line_page page_num line :
  Forall (fun b => Block.page b = page_num) (block_of_line page_num line).
Proof.
  unfold block_of_line.
  destruct (acc_bbox _) as [[[[x0 y0] x1] y1] |]; [| constructor].
  destruct (negb _); repeat constructor.
Qed.

Lemma extract_page_blocks_page page page_num :
  Forall (fun b => Block.page b = page_num)
    (_extract_page_blocks page page_num).
Proof.
  unfold _extract_page_blocks. rewrite Forall_forall. intros b Hb.
  apply in_flat_map in Hb. destruct Hb as ([lines |] & _ & Hb);
    [| contradiction].
  apply in_flat_map in Hb. destruct Hb as (line & _ & Hb).
  pose proof (block_of_line_page page_num line) as H.
  rewrite Forall_forall in H. now apply H.
Qed.

(** Blocks are numbered from page 1 and no further than the last page. *)
Lemma all_blocks_from_pages doc : forall n,
  Forall (fun b => n + 1 <= Block.page b <= n + List.length doc)%nat
    (all_blocks_from n doc).
Proof.
  induction doc as [| page doc IH]; intros n; cbn [all_blocks_from].
  - constructor.
  - apply Forall_app. split.
    + eapply Forall_impl; [| apply extract_page_blocks_page].
      intros b ->. cbn. lia.
    + eapply Forall_impl; [| apply IH]. intros b Hb. cbn in *. lia.
Qed.

(** The outline of a document that [extract_outline] returns has its
    headings on pages of the document. *)
Lemma extract_outline_pages pdf_path result log :
  extract_outline pdf_path = (Ok result, log) ->
  exists doc,
    fitz_open pdf_path = Ok doc
    /\ Forall (fun h => 1 <= Heading.page h <= List.length doc)%nat
         (outline result).
Proof.
  unfold extract_outline.
  destruct (fitz_open pdf_path) as [doc | e]; [| discriminate].
  cbn [lift bind].
  destruct (Py.len doc =? 0); [discriminate |].
  destruct (filter _ (map Block.fontsize (all_blocks_from 0 doc)))
    as [| s0 sizes]; [discriminate |].
  destruct (median (s0 :: sizes)) as [m | e]; [| discriminate].
  cbn [lift bind].
  destruct (extract_headings_ok (all_blocks_from 0 doc) m)
    as (headings & Hh & Hperm).
  rewrite Hh. cbn. intros H. inversion H; subst. cbn [outline].
  exists doc. split; [reflexivity |].
  eapply Permutation_Forall; [apply Permutation_sym, Hperm |].
  rewrite Forall_forall. intros h Hin.
  apply in_map_iff in Hin. destruct Hin as (b & <- & Hb).
  apply filter_In in Hb. destruct Hb as [Hb _].
  pose proof (all_blocks_from_pages doc 0) as Hpages.
  rewrite Forall_forall in Hpages. specialize (Hpages b Hb). cbn in *. lia.
Qed.

(** ** The relevance score *)

Lemma level_weights_get level :
  dict_get level_weights level 0.5%Q = spec_level_weight level.
Proof.
  unfold level_weights, spec_level_weight. cbn [dict_get].
  rewrite !(String.eqb_sym _ level). reflexivity.
Qed.

(** C3.  The score of a section is 0.55 times the similarity, plus 0.25
    times the level weight (1.0, 0.7, 0.4 and 1.2 for H1, H2, H3 and title,
    0.5 for any other level), plus 0.15 times the recency constant 0.5, plus
    0.05 times the content boost. *)
Theorem section_score_formula (section : Sec.t) (similarity : Q)
    (query : string) :
  dict_get level_weights (Sec.level section) 0.5%Q
  = spec_level_weight (Sec.level section)
  /\ (_calculate_section_score section similarity query
      == 0.55 * similarity
         + 0.25 * spec_level_weight (Sec.level section)
         + 0.15 * 0.5
         + 0.05 * _calculate_content_boost (Sec.text section) query)%Q.
Proof.
  split; [apply level_weights_get |].
  unfold _calculate_section_score. rewrite level_weights_get.
  cbn [semantic_similarity level_weight recency_factor content_boost weights].
  reflexivity.
Qed.

Example content_boost_both_fire :
  (_calculate_content_boost "Table 3 shows revenue of $2 million"
     "quarterly revenue analysis" == 0.5)%Q.
Proof. vm_compute. reflexivity. Qed.

(** ** Ranking *)

Lemma undecorate_insert {A K} (ltb : K -> K -> bool) (k : A -> K) x d :
  Forall (fun p => fst p = k (snd p)) d ->
  map snd (insert_by ltb fst (k x, x) d) = insert_by ltb k x (map snd d).
Proof.
  induction 1 as [| p d Hp Hd IH]; cbn [insert_by map]; [reflexivity |].
  cbn [fst snd]. rewrite <- Hp.
  destruct (ltb (fst p) (k x)); cbn [map]; [now rewrite IH | reflexivity].
Qed.

Lemma undecorate_sort {A K} (ltb : K -> K -> bool) (k : A -> K) l :
  map snd (sort_by ltb fst (map (fun x => (k x, x)) l)) = sort_by ltb k l.
Proof.
  induction l as [| x l IH]; cbn [map sort_by]; [reflexivity |].
  rewrite undecorate_insert, IH; [reflexivity |].
  eapply Permutation_Forall.
  - apply Permutation_sym, sort_by_perm.
  - rewrite Forall_forall. intros p Hp.
    apply in_map_iff in Hp. destruct Hp as (y & <- & _). reflexivity.
Qed.

Lemma decorate_scored l :
  Forall (fun s => Sec.relevance_score s <> None) l ->
  decorate relevance_key l = Ok (map (fun s => (score_of s, s)) l).
Proof.
  induction 1 as [| s l Hs Hl IH]; cbn [decorate map]; [reflexivity |].
  rewrite IH. unfold relevance_key, score_of.
  destruct (Sec.relevance_score s); [reflexivity | congruence].
Qed.

Lemma score_sections_ok sims q : forall sections i,
  (i + List.length sections <= List.length sims)%nat ->
  score_sections sims q i sections
  = Ok (map (fun p => score_one q (fst p) (snd p))
          (combine sections (skipn i sims))).
Proof.
  induction sections as [| s rest IH]; intros i Hlen; cbn [score_sections].
  - reflexivity.
  - cbn [List.length] in Hlen.
    destruct (nth_error sims i) as [sim |] eqn:Hsim.
    + rewrite IH by lia. rewrite (skipn_nth_error sims i sim Hsim).
      reflexivity.
    + apply nth_error_None in Hsim. lia.
Qed.

Lemma set_ranks_nth : forall ranked i j s,
  nth_error (set_ranks i ranked) j = Some s ->
  Sec.importance_rank s = (i + j + 1)%nat
  /\ exists s0, nth_error ranked j = Some s0
                /\ s = Sec.set_importance_rank (i + j + 1) s0.
Proof.
  induction ranked as [| x ranked IH]; intros i [| j] s H; cbn in H;
    try discriminate.
  - inversion H; subst. rewrite Nat.add_0_r. split; [reflexivity |].
    exists x. auto.
  - destruct (IH (S i) j s H) as (Hr & s0 & Hs0 & Hs).
    replace (i + S j + 1)%nat with (S i + j + 1)%nat by lia.
    split; [exact Hr |]. exists s0. auto.
Qed.

Lemma set_ranks_length : forall ranked i,
  List.length (set_ranks i ranked) = List.length ranked.
Proof.
  induction ranked as [| x ranked IH]; intros i; cbn; [reflexivity |].
  now rewrite IH.
Qed.

(** Writing the ranks touches no other field. *)
Lemma set_ranks_erase : forall ranked i,
  Forall (fun s => Sec.importance_rank s = 0%nat) ranked ->
  map (Sec.set_importance_rank 0) (set_ranks i ranked) = ranked.
Proof.
  induction ranked as [| x ranked IH]; intros i Hall; cbn; [reflexivity |].
  inversion Hall as [| ? ? Hx Hrest]; subst.
  rewrite IH by exact Hrest. f_equal.
  destruct x; cbn in *; subst; reflexivity.
Qed.

Lemma set_ranks_score : forall ranked i,
  map score_of (set_ranks i ranked) = map score_of ranked.
Proof.
  induction ranked as [| x ranked IH]; intros i; cbn; [reflexivity |].
  now rewrite IH.
Qed.

Lemma Qgtb_asym a b : Qgtb a b = true -> Qgtb b a = false.
Proof.
  unfold Qgtb. intros H. apply Qltb_lt in H.
  destruct (Qltb a b) eqn:E; [| reflexivity].
  apply Qltb_lt in E. exfalso. exact (Qlt_irrefl _ (Qlt_trans _ _ _ H E)).
Qed.

Lemma Qgtb_false a b : Qgtb b a = false <-> (b <= a)%Q.
Proof.
  unfold Qgtb, Qltb. rewrite negb_false_iff. apply Qle_bool_iff.
Qed.

Lemma Qgtb_trans a b c :
  Qgtb b a = false -> Qgtb c b = false -> Qgtb c a = false.
Proof.
  rewrite !Qgtb_false. intros H1 H2. exact (Qle_trans _ _ _ H2 H1).
Qed.

Lemma bind_assoc {A B C} (m : Logged A) (f : A -> Logged B)
    (g : B -> Logged C) :
  bind (bind m f) g = bind m (fun x => bind (f x) g).
Proof.
  destruct m as [[a | e] l1]; cbn; [| reflexivity].
  destruct (f a) as [[b | e] l2]; cbn; [| reflexivity].
  destruct (g b) as [r l3]. now rewrite app_assoc.
Qed.

Lemma StronglySorted_weaken {A} (R R' : A -> A -> Prop) l :
  (forall a b, R a b -> R' a b) ->
  StronglySorted R l -> StronglySorted R' l.
Proof.
  intros HR. induction 1 as [| x l Hs IH Hall]; constructor.
  - exact IH.
  - eapply Forall_impl; [| exact Hall]. intros y. apply HR.
Qed.

Section RankingFacts.
Variable similarity_backend : list string -> string -> list Q.

(** The contract of both backends: one value per text. *)
Hypothesis backend_length : forall texts query,
  List.length (similarity_backend texts query) = List.length texts.

Lemma scored_sections_length sections q :
  List.length (scored_sections similarity_backend sections q)
  = List.length sections.
Proof.
  unfold scored_sections.
  rewrite length_map, length_combine, backend_length, length_map.
  apply Nat.min_id.
Qed.

Lemma scored_sections_fields sections q :
  Forall (fun s => Sec.relevance_score s <> None
                   /\ Sec.importance_rank s = 0%nat)
    (scored_sections similarity_backend sections q).
Proof.
  unfold scored_sections. rewrite Forall_forall. intros s Hs.
  apply in_map_iff in Hs. destruct Hs as (p & <- & _).
  split; [discriminate | reflexivity].
Qed.

Lemma rank_by_relevance_ok sections q :
  sections <> [] ->
  _rank_sections_by_relevance similarity_backend sections q
  = Ok (set_ranks 0
          (sort_by Qgtb score_of
             (scored_sections similarity_backend sections q))).
Proof.
  intros Hne. unfold _rank_sections_by_relevance.
  destruct sections as [| s rest]; [congruence |].
  rewrite score_sections_ok
    by (rewrite backend_length, length_map; cbn; lia).
  cbn [skipn]. fold (scored_sections similarity_backend (s :: rest) q).
  rewrite decorate_scored.
  - unfold sorted. rewrite undecorate_sort. reflexivity.
  - eapply Forall_impl; [| apply scored_sections_fields].
    intros x [Hx _]. exact Hx.
Qed.

Lemma collect_sections_ok : forall pdf_paths all_sections,
  exists all_sections' log,
    collect_sections pdf_paths all_sections = (Ok all_sections', log).
Proof.
  induction pdf_paths as [| p rest IH]; intros acc; cbn [collect_sections].
  - eexists. eexists. reflexivity.
  - unfold bind at 1.
    destruct (try_except _ _) as [[acc' | e] log1] eqn:Htry.
    + destruct (IH acc') as (r & log2 & Hr). rewrite Hr. eauto.
    + exfalso. unfold try_except in Htry.
      destruct (bind (extract_outline p) _) as [[a | e'] l1];
        [inversion Htry | cbn in Htry; inversion Htry].
Qed.

(** C4.  For the sections collected from the documents, when there is at
    least one: the ranking returns them sorted by descending score, sections
    of equal score in their order of discovery, with ranks 1, 2, 3, ...
    written after the sort; [rank_sections] returns the first ten of that
    list and the number of all collected sections. *)
Theorem rank_sections_stable_descending pdf_paths persona job_description
    all_sections log :
  collect_sections pdf_paths [] = (Ok all_sections, log) ->
  all_sections <> [] ->
  let persona_query := persona ++ ": " ++ job_description in
  let scored :=
    scored_sections similarity_backend all_sections persona_query in
  exists ranked,
    _rank_sections_by_relevance similarity_backend all_sections persona_query
    = Ok ranked
    /\ Permutation (map (Sec.set_importance_rank 0) ranked) scored
    /\ StronglySorted score_not_above ranked
    /\ (forall v,
          filter (has_score v) (map (Sec.set_importance_rank 0) ranked)
          = filter (has_score v) scored)
    /\ (forall i s, nth_error ranked i = Some s ->
          Sec.importance_rank s = (i + 1)%nat)
    /\ List.length ranked = List.length all_sections
    /\ rank_sections similarity_backend pdf_paths persona job_description
       = (Ok (mkRankResult (firstn 10 ranked) (List.length all_sections)),
          log).
Proof.
  intros Hcollect Hne persona_query scored.
  set (sorted_scored := sort_by Qgtb score_of scored).
  assert (Hrank0 : Forall (fun s => Sec.importance_rank s = 0%nat)
                     sorted_scored).
  { eapply Permutation_Forall; [apply Permutation_sym, sort_by_perm |].
    eapply Forall_impl; [| apply scored_sections_fields].
    intros x [_ Hx]. exact Hx. }
  assert (Hsorted : StronglySorted score_not_above sorted_scored).
  { eapply StronglySorted_weaken;
      [| apply (sort_by_sorted Qgtb score_of Qgtb_asym Qgtb_trans)].
    intros a b Hab. apply Qgtb_false, Hab. }
  exists (set_ranks 0 sorted_scored).
  split; [apply rank_by_relevance_ok, Hne |].
  rewrite set_ranks_erase by exact Hrank0.
  split; [apply sort_by_perm |].
  split.
  { clear - Hsorted. generalize 0%nat.
    induction Hsorted as [| x l Hs IH Hall]; intros i; cbn [set_ranks];
      constructor.
    - apply IH.
    - rewrite Forall_forall. intros y Hy.
      assert (Hin : In (score_of y) (map score_of (set_ranks (S i) l)))
        by (apply in_map, Hy).
      rewrite set_ranks_score in Hin. apply in_map_iff in Hin.
      destruct Hin as (y0 & Hy0 & Hin0).
      rewrite Forall_forall in Hall. specialize (Hall y0 Hin0).
      unfold score_not_above in *. rewrite <- Hy0.
      destruct x; exact Hall. }
  split.
  { intros v. apply sort_by_filter. intros a b Ha Hb.
    unfold has_score in *. apply Qeq_bool_iff in Ha, Hb.
    apply Qgtb_false. rewrite Ha, Hb. apply Qle_refl. }
  split.
  { intros i s Hs. apply set_ranks_nth in Hs. destruct Hs as [Hs _].
    exact Hs. }
  split.
  { rewrite set_ranks_length. unfold sorted_scored.
    rewrite (Permutation_length (sort_by_perm Qgtb score_of scored)).
    apply scored_sections_length. }
  unfold rank_sections. rewrite Hcollect. cbn [bind].
  destruct all_sections as [| s0 rest]; [congruence |].
  rewrite rank_by_relevance_ok by exact Hne.
  cbn. rewrite app_nil_r. reflexivity.
Qed.
Lemma collect_sections_cons p rest all_sections :
  collect_sections (p :: rest) all_sections
  = (all_sections' <-
       try_except
         (sections <- document_result p ;;
          ret (all_sections
               ++ map (Sec.set_document (name p)) sections)%list)
         (fun e =>
            tell (LogError ("Error processing " ++ name p ++ ": "
                            ++ str_of_exn e)) ;;;
            ret all_sections) ;;
     collect_sections rest all_sections')%logged.
Proof.
  cbn [collect_sections]. unfold document_result.
  rewrite bind_assoc. reflexivity.
Qed.

Lemma collect_sections_spec : forall pdf_paths all_sections,
  exists log,
    collect_sections pdf_paths all_sections
    = (Ok (all_sections ++ flat_map document_sections pdf_paths)%list, log)
    /\ forall p e, In p pdf_paths ->
         fst (document_result p) = Err e ->
         In (LogError ("Error processing " ++ name p ++ ": " ++ str_of_exn e))
            log.
Proof.
  induction pdf_paths as [| p rest IH]; intros acc.
  - exists []. cbn. rewrite app_nil_r. split; [reflexivity |].
    intros p e [].
  - rewrite collect_sections_cons. cbn [flat_map].
    unfold document_sections at 1.
    destruct (document_result p) as [[sections | e] l1] eqn:Hdoc;
      cbn [fst bind ret try_except tell raise].
    + destruct (IH (acc ++ map (Sec.set_document (name p)) sections)%list)
        as (log & Hlog & Hin).
      rewrite Hlog. eexists. split.
      * rewrite <- app_assoc. reflexivity.
      * intros p' e' [<- | Hp'] He'.
        -- rewrite Hdoc in He'. discriminate.
        -- apply in_or_app. right. eapply Hin; eassumption.
    + destruct (IH acc) as (log & Hlog & Hin).
      rewrite Hlog. eexists. split.
      * reflexivity.
      * intros p' e' [<- | Hp'] He'.
        -- rewrite Hdoc in He'. cbn in He'. inversion He'; subst e'.
           apply in_or_app. left. apply in_or_app. right. cbn. auto.
        -- apply in_or_app. right. eapply Hin; eassumption.
Qed.

(** C6.  [rank_sections] raises its "no sections" error exactly when the
    documents together give no section.  A document whose extraction raises
    contributes no section and leaves an error record in the log; the
    sections of the other documents are all candidates, and when there is
    one at least they are ranked and returned. *)
Theorem rank_sections_no_sections_error pdf_paths persona job_description :
  let candidates := flat_map document_sections pdf_paths in
  let run :=
    rank_sections similarity_backend pdf_paths persona job_description in
  (fst run = Err no_sections_error <-> candidates = [])
  /\ (candidates <> [] ->
       exists ranked,
         _rank_sections_by_relevance similarity_backend candidates
           (persona ++ ": " ++ job_description) = Ok ranked
         /\ fst run
            = Ok (mkRankResult (firstn 10 ranked) (List.length candidates)))
  /\ (forall p e, In p pdf_paths ->
         fst (document_result p) = Err e ->
         document_sections p = []
         /\ In (LogError ("Error processing " ++ name p ++ ": "
                          ++ str_of_exn e)) (snd run))
  /\ (forall p sections s, In p pdf_paths ->
         fst (document_result p) = Ok sections ->
         In s sections ->
         In (Sec.set_document (name p) s) candidates).
Proof.
  intros candidates run.
  destruct (collect_sections_spec pdf_paths []) as (log & Hlog & Hin).
  cbn [app] in Hlog. fold candidates in Hlog.
  assert (Hrun : candidates = [] /\ fst run = Err no_sections_error
                                /\ (forall x, In x log -> In x (snd run))
                 \/ candidates <> []
                    /\ (forall x, In x log -> In x (snd run))
                    /\ exists ranked,
                         _rank_sections_by_relevance similarity_backend
                           candidates (persona ++ ": " ++ job_description)
                         = Ok ranked
                         /\ fst run
                            = Ok (mkRankResult (firstn 10 ranked)
                                    (List.length candidates))).
  { unfold run, rank_sections. rewrite Hlog. cbn [bind].
    destruct candidates as [| c cs] eqn:Hc.
    - left. cbn. repeat split.
      intros x Hx. apply in_or_app. left. apply in_or_app. now left.
    - right. split; [discriminate |].
      rewrite rank_by_relevance_ok by discriminate. cbn.
      split; [intros x Hx; apply in_or_app; now left |].
      eexists. split; reflexivity. }
  split; [| split; [| split]].
  - destruct Hrun as [(Hc & Hr & _) | (Hc & _ & ranked & _ & Hr)].
    + split; auto.
    + split; [rewrite Hr; discriminate | intros E; contradiction].
  - intros Hne. destruct Hrun as [(Hc & _) | (_ & _ & Hr)];
      [contradiction | exact Hr].
  - intros p e Hp He. split.
    + unfold document_sections. now rewrite He.
    + assert (Hl : forall x, In x log -> In x (snd run))
        by (destruct Hrun as [(_ & _ & H) | (_ & H & _)]; exact H).
      apply Hl. eapply Hin; eassumption.
  - intros p sections s Hp Hs Hsin. unfold candidates.
    apply in_flat_map. exists p. split; [exact Hp |].
    unfold document_sections. rewrite Hs. apply in_map, Hsin.
Qed.
End RankingFacts.

(** ** Validation *)

Lemma validate_all_filter : forall pdf_paths valid_pdfs,
  exists log,
    validate_all pdf_paths valid_pdfs
    = (Ok (valid_pdfs ++ filter validate_pdf pdf_paths)%list, log).
Proof.
  induction pdf_paths as [| p rest IH]; intros acc;
    cbn [validate_all filter].
  - exists []. now rewrite app_nil_r.
  - destruct (validate_pdf p).
    + destruct (IH (acc ++ [p])%list) as (log & Hlog).
      exists log. rewrite Hlog, <- app_assoc. reflexivity.
    + destruct (IH acc) as (log & Hlog).
      cbn. rewrite Hlog. eexists. reflexivity.
Qed.

Lemma validate_pdf_true f :
  validate_pdf f = true ->
  exists doc,
    pdf f = Some doc /\ fitz_open f = Ok doc
    /\ (1 <= List.length doc <= 50)%nat.
Proof.
  unfold validate_pdf, fitz_open.
  destruct (exists_ f); cbn [negb]; [| discriminate].
  destruct (st_size f =? 0); [discriminate |].
  destruct (pdf f) as [doc |]; [| discriminate].
  unfold Py.len.
  destruct (Z.eqb_spec (Z.of_nat (List.length doc)) 0); [discriminate |].
  destruct (Z.gtb_spec (Z.of_nat (List.length doc)) 50); [discriminate |].
  intros _. exists doc. repeat split; lia.
Qed.

(** C10.  [validate_pdf] is false for a path that does not exist, for an
    empty file, for a file that cannot be opened and for a document of 0 or
    of more than 50 pages.  Round 1A answers an invalid file with an error
    record without reading its outline, and Round 1B hands to the ranker
    the valid files only, so no document of more than 50 pages reaches
    outline extraction or ranking. *)
Theorem validate_pdf_rejects :
  (forall f, exists_ f = false -> validate_pdf f = false)
  /\ (forall f, st_size f = 0 -> validate_pdf f = false)
  /\ (forall f, pdf f = None -> validate_pdf f = false)
  /\ (forall f doc,
        pdf f = Some doc ->
        List.length doc = 0%nat \/ (50 < List.length doc)%nat ->
        validate_pdf f = false)
  /\ (forall f,
        validate_pdf f = false ->
        process_round_1a f
        = (Ok (Round1A_error ("Invalid PDF file: " ++ name f) (name f)),
           [LogError ("Error processing " ++ name f ++ ": "
                      ++ "Invalid PDF file: " ++ name f)]))
  /\ (forall pdf_paths f,
        In f (filter validate_pdf pdf_paths) ->
        exists doc,
          pdf f = Some doc /\ (1 <= List.length doc <= 50)%nat)
  /\ (forall similarity_backend pdf_paths persona job_description,
        fst (process_round_1b similarity_backend pdf_paths persona
               job_description)
        = match filter validate_pdf pdf_paths with
          | [] =>
              Ok (Round1B_error "No valid PDFs found" persona job_description)
          | valid_pdfs =>
              match fst (rank_sections similarity_backend valid_pdfs persona
                           job_description) with
              | Ok result =>
                  Ok (Round1B_result result (map name valid_pdfs) persona
                        job_description)
              | Err e =>
                  Ok (Round1B_error (str_of_exn e) persona job_description)
              end
          end).
Proof.
  repeat split.
  - intros f H. unfold validate_pdf. now rewrite H.
  - intros f H. unfold validate_pdf. rewrite H.
    destruct (exists_ f); reflexivity.
  - intros f H. unfold validate_pdf, fitz_open. rewrite H.
    destruct (exists_ f), (st_size f =? 0); reflexivity.
  - intros f doc H Hlen. unfold validate_pdf, fitz_open. rewrite H.
    destruct (exists_ f); cbn [negb]; [| reflexivity].
    destruct (st_size f =? 0); [reflexivity |].
    unfold Py.len.
    destruct (Z.eqb_spec (Z.of_nat (List.length doc)) 0); [reflexivity |].
    destruct (Z.gtb_spec (Z.of_nat (List.length doc)) 50); [reflexivity |].
    lia.
  - intros f H. unfold process_round_1a. rewrite H. reflexivity.
  - intros pdf_paths f Hf. apply filter_In in Hf. destruct Hf as [_ Hv].
    destruct (validate_pdf_true f Hv) as (doc & Hdoc & _ & Hlen).
    exists doc. auto.
  - intros backend pdf_paths persona job. unfold process_round_1b.
    destruct (validate_all_filter pdf_paths []) as (log & Hlog).
    rewrite Hlog. cbn [app bind].
    destruct (filter validate_pdf pdf_paths) as [| v vs]; [reflexivity |].
    destruct (rank_sections backend (v :: vs) persona job)
      as [[result | e] log']; reflexivity.
Qed.

(** ** Concrete runs *)

Lemma zero_backend_length texts query :
  List.length (zero_backend texts query) = List.length texts.
Proof. apply length_map. Defined.

Lemma example_doc_blocks :
  all_blocks_from 0 example_doc = duplicate_text_blocks.
Proof. vm_compute. reflexivity. Qed.

Lemma rank_sections_stable_descending_witness :
  exists ranked,
    _rank_sections_by_relevance zero_backend example_sections
      ("analyst" ++ ": " ++ "review")
    = Ok ranked
    /\ Permutation (map (Sec.set_importance_rank 0) ranked)
         (scored_sections zero_backend example_sections
            ("analyst" ++ ": " ++ "review"))
    /\ StronglySorted score_not_above ranked
    /\ (forall v,
          filter (has_score v) (map (Sec.set_importance_rank 0) ranked)
          = filter (has_score v)
              (scored_sections zero_backend example_sections
                 ("analyst" ++ ": " ++ "review")))
    /\ (forall i s, nth_error ranked i = Some s ->
          Sec.importance_rank s = (i + 1)%nat)
    /\ List.length ranked = List.length example_sections
    /\ rank_sections zero_backend [example_file] "analyst" "review"
       = (Ok (mkRankResult (firstn 10 ranked)
                (List.length example_sections)),
          []).
Proof.
  apply (rank_sections_stable_descending zero_backend zero_backend_length
           [example_file] "analyst" "review" example_sections []).
  - vm_compute. reflexivity.
  - discriminate.
Defined.

Lemma rank_sections_no_sections_error_witness :
  fst (rank_sections zero_backend [broken_file] "analyst" "review")
  = Err no_sections_error
  /\ (exists ranked,
        _rank_sections_by_relevance zero_backend
          (flat_map document_sections [broken_file; example_file])
          ("analyst" ++ ": " ++ "review") = Ok ranked
        /\ fst (rank_sections zero_backend [broken_file; example_file]
                  "analyst" "review")
           = Ok (mkRankResult (firstn 10 ranked)
                   (List.length
                      (flat_map document_sections
                         [broken_file; example_file]))))
  /\ In (LogError ("Error processing " ++ name broken_file ++ ": "
                   ++ str_of_exn (FileDataError "cannot open document")))
       (snd (rank_sections zero_backend [broken_file; example_file]
               "analyst" "review")).
Proof.
  split; [| split].
  - apply (proj1 (rank_sections_no_sections_error zero_backend
                    zero_backend_length [broken_file] "analyst" "review")).
    reflexivity.
  - apply (proj1 (proj2 (rank_sections_no_sections_error zero_backend
                           zero_backend_length [broken_file; example_file]
                           "analyst" "review"))).
    vm_compute. discriminate.
  - apply (proj1 (proj2 (proj2 (rank_sections_no_sections_error zero_backend
                                  zero_backend_length
                                  [broken_file; example_file]
                                  "analyst" "review")))
             broken_file (FileDataError "cannot open document")).
    + cbn. auto.
    + reflexivity.
Defined.

Lemma validate_pdf_rejects_witness :
  validate_pdf long_file = false
  /\ validate_pdf broken_file = false
  /\ (exists doc,
        pdf example_file = Some doc /\ (1 <= List.length doc <= 50)%nat).
Proof.
  destruct validate_pdf_rejects as (_ & _ & Hopen & Hpages & _ & Hvalid & _).
  split; [| split].
  - apply (Hpages long_file long_doc); [reflexivity | right; cbn; lia].
  - apply (Hopen broken_file). reflexivity.
  - apply (Hvalid [long_file; broken_file; example_file] example_file).
    cbn. auto.
Defined.

(** * Further properties of the code *)

(** ** Splitting and joining *)

Lemma split_from_nonspace w : forall cur s,
  all_chars non_space w = true ->
  Py.split_from cur (w ++ s) = Py.split_from (cur ++ w) s.
Proof.
  induction w as [| c w IH]; intros cur s Hw; cbn [append].
  - now rewrite str_app_nil_r.
  - cbn in Hw. apply andb_true_iff in Hw. destruct Hw as [Hc Hw].
    unfold non_space in Hc. apply negb_true_iff in Hc.
    cbn [Py.split_from]. rewrite Hc, IH by exact Hw.
    now rewrite str_app_assoc.
Qed.

(** Splitting the join of a list of words gives the words back. *)
Lemma split_join_words ws :
  Forall is_word ws -> Py.split (Py.join " " ws) = ws.
Proof.
  induction 1 as [| w ws [Hne Hw] Hws IH]; [reflexivity |].
  unfold Py.split, Py.join in *. cbn [String.concat].
  destruct ws as [| w' ws'].
  - rewrite <- (str_app_nil_r w) at 1.
    rewrite split_from_nonspace by exact Hw. cbn.
    destruct w; [congruence | reflexivity].
  - rewrite split_from_nonspace by exact Hw. cbn [append Py.split_from].
    change (Py.isspace " ") with true. cbv iota.
    destruct w; [congruence |]. cbn [Py.is_empty]. now rewrite IH.
Qed.

Lemma normalize_ws_split text : Py.split (normalize_ws text) = Py.split text.
Proof. apply split_join_words, split_words. Qed.

(** X1.  [_clean_text] returns the words of the text joined by single
    spaces.  The result has the same words, contains neither newline nor
    tab, is unchanged by [strip], and cleaning it again changes nothing. *)
Theorem clean_text_normal_form text :
  _clean_text text = Py.join " " (Py.split text)
  /\ Py.split (_clean_text text) = Py.split text
  /\ _clean_text (_clean_text text) = _clean_text text
  /\ Py.strip (_clean_text text) = _clean_text text
  /\ all_chars (fun c => negb (Ascii.eqb c newline) && negb (Ascii.eqb c tab))
       (_clean_text text) = true.
Proof.
  rewrite !clean_text_normalizes.
  assert (Hsplit : Py.split (normalize_ws text) = Py.split text)
    by apply normalize_ws_split.
  assert (Hchars : all_chars
                     (fun c => negb (Ascii.eqb c newline)
                               && negb (Ascii.eqb c tab))
                     (normalize_ws text) = true).
  { apply join_chars; [reflexivity |].
    eapply Forall_impl; [| apply (split_words text)]. intros w [_ Hw].
    eapply all_chars_impl; [| exact Hw]. intros c Hc.
    destruct (Ascii.eqb_spec c newline) as [-> | _]; [discriminate |].
    destruct (Ascii.eqb_spec c tab) as [-> | _]; [discriminate | reflexivity]. }
  assert (Hidem : normalize_ws (normalize_ws text) = normalize_ws text)
    by (unfold normalize_ws at 1; now rewrite Hsplit).
  split; [reflexivity |]. split; [exact Hsplit |].
  split; [exact Hidem |]. split; [| exact Hchars].
  pose proof (clean_text_normalizes (normalize_ws text)) as H.
  rewrite Hidem in H. unfold _clean_text in H. rewrite Hsplit in H.
  change (Py.join " " (Py.split text)) with (normalize_ws text) in H.
  rewrite (replace_char_id newline), (replace_char_id tab) in H.
  - exact H.
  - eapply all_chars_impl; [| exact Hchars]. intros c Hc.
    apply andb_true_iff in Hc. tauto.
  - eapply all_chars_impl; [| exact Hchars]. intros c Hc.
    apply andb_true_iff in Hc. tauto.
Qed.

(** ** What the chunks hold *)

Lemma slice_in_range {A} (l : list A) (a b : Z) :
  0 <= a <= b -> b <= Py.len l ->
  Py.slice l a b = firstn (Z.to_nat (b - a)) (skipn (Z.to_nat a) l).
Proof.
  intros Hab Hb. unfold Py.slice, Py.slice_bound.
  destruct (Z.ltb_spec a 0); [lia |].
  destruct (Z.ltb_spec b 0); [lia |].
  now rewrite !Z.min_l by lia.
Qed.

Lemma Forall_firstn {A} (P : A -> Prop) n : forall l,
  Forall P l -> Forall P (firstn n l).
Proof.
  induction n as [| n IH]; intros l H; [constructor |].
  destruct H; cbn; constructor; auto.
Qed.

Lemma Forall_skipn {A} (P : A -> Prop) n : forall l,
  Forall P l -> Forall P (skipn n l).
Proof.
  induction n as [| n IH]; intros l H; [exact H |].
  destruct H; cbn; [constructor | auto].
Qed.

Lemma firstn_split_at {A} (l : list A) (a b : nat) :
  (a <= b)%nat ->
  (firstn a l ++ firstn (b - a) (skipn a l))%list = firstn b l.
Proof.
  intros Hab.
  rewrite <- (firstn_skipn a (firstn b l)) at 1.
  rewrite firstn_firstn, Nat.min_l by exact Hab.
  now rewrite skipn_firstn_comm.
Qed.

Lemma split_window words max_tokens start :
  Forall is_word words ->
  0 <= start <= Py.len words -> 0 <= max_tokens ->
  Py.split (window words max_tokens start)
  = window_words words max_tokens start.
Proof.
  intros Hw Hs Hm. unfold window, window_words.
  rewrite slice_in_range by lia.
  apply split_join_words, Forall_firstn, Forall_skipn, Hw.
Qed.

Lemma window_words_length words max_tokens start :
  0 <= start <= Py.len words -> 0 <= max_tokens ->
  Z.of_nat (List.length (window_words words max_tokens start))
  = Z.min max_tokens (Py.len words - start).
Proof.
  intros Hs Hm. unfold window_words.
  rewrite length_firstn, length_skipn. unfold Py.len in *. lia.
Qed.

(** The first window, and of each later window what lies past the overlap,
    laid end to end: the words up to the end of window [j]. *)
Lemma windows_cover words m o (k : nat) :
  0 <= o < m ->
  (forall i, (i < k)%nat -> Z.of_nat i * (m - o) + m < Py.len words) ->
  forall j, (j <= k)%nat ->
    Z.of_nat j * (m - o) <= Py.len words ->
    (window_words words m 0
     ++ flat_map
          (fun i => skipn (Z.to_nat o)
                      (window_words words m (Z.of_nat i * (m - o))))
          (seq 1 j))%list
    = firstn (Z.to_nat (Z.min (Z.of_nat j * (m - o) + m) (Py.len words)))
        words.
Proof.
  intros Hom Hfull. induction j as [| j IH]; intros Hj Hstart.
  - cbn [seq flat_map]. rewrite app_nil_r. unfold window_words.
    cbn [Z.of_nat Z.mul Z.to_nat skipn]. f_equal. lia.
  - assert (Hprev : Z.of_nat j * (m - o) + m < Py.len words)
      by (apply Hfull; lia).
    assert (Hnn : 0 <= Z.of_nat j * (m - o)) by nia.
    rewrite seq_S, flat_map_app, app_assoc, IH by lia.
    cbn [flat_map Nat.add]. rewrite app_nil_r.
    unfold window_words.
    rewrite skipn_firstn_comm, skipn_skipn.
    set (e := Z.to_nat (Z.min (Z.of_nat j * (m - o) + m) (Py.len words))).
    set (e' := Z.to_nat (Z.min (Z.of_nat (S j) * (m - o) + m)
                           (Py.len words))).
    replace (Z.to_nat o + Z.to_nat (Z.of_nat (S j) * (m - o)))%nat
      with e by (unfold e; lia).
    replace (Z.to_nat (Z.min (Z.of_nat (S j) * (m - o) + m) (Py.len words)
                       - Z.of_nat (S j) * (m - o)) - Z.to_nat o)%nat
      with (e' - e)%nat by (unfold e, e'; lia).
    apply firstn_split_at. unfold e, e'. lia.
Qed.

Lemma flat_map_map {A B C} (f : A -> B) (g : B -> list C) l :
  flat_map g (map f l) = flat_map (fun x => g (f x)) l.
Proof.
  induction l as [| x l IH]; cbn; [reflexivity | now rewrite IH].
Qed.

Lemma flat_map_ext_in {A B} (f g : A -> list B) l :
  (forall x, In x l -> f x = g x) -> flat_map f l = flat_map g l.
Proof.
  induction l as [| x l IH]; intros H; cbn; [reflexivity |].
  rewrite H, IH; [reflexivity | | ]; cbn; auto.
  intros y Hy. apply H. cbn. auto.
Qed.

(** X2.  For [0 <= overlap < max_tokens], when [chunk_text] returns:
    every chunk has at most [max_tokens] words; no word is lost, the chunks
    without their overlaps give the words of the text in order; and a text
    of more than [max_tokens] words gives
    [ceil ((words - max_tokens) / (max_tokens - overlap)) + 1] chunks. *)
Theorem chunk_text_chunks text max_tokens overlap chunks :
  0 <= overlap < max_tokens ->
  chunk_text text max_tokens overlap = Some chunks ->
  Forall (fun c => Py.len (Py.split c) <= max_tokens) chunks
  /\ chunks_without_overlap overlap chunks = Py.split text
  /\ (max_tokens < Py.len (Py.split text) ->
      Py.len chunks
      = (Py.len (Py.split text) - max_tokens + (max_tokens - overlap) - 1)
        / (max_tokens - overlap) + 1).
Proof.
  intros Hom Hrun.
  destruct (Z.le_gt_cases (Py.len (Py.split text)) max_tokens) as [Hle | Hgt].
  - assert (Hchunks : chunks = [] /\ text = ""
                      \/ chunks = [text] /\ text <> "").
    { unfold chunk_text, chunk_text_fuel in Hrun.
      destruct text as [| c text].
      - left. cbn in Hrun. inversion Hrun. auto.
      - right. cbn [Py.is_empty] in Hrun. cbv zeta in Hrun.
        destruct (Z.leb_spec (Py.len (Py.split (String c text))) max_tokens);
          [| lia].
        inversion Hrun. split; [reflexivity | discriminate]. }
    destruct Hchunks as [[-> ->] | [-> _]].
    + repeat split; [constructor | lia].
    + repeat split; [repeat constructor; exact Hle | | lia].
      cbn. now rewrite app_nil_r.
  - destruct (chunk_text_windows text max_tokens overlap Hom Hgt)
      as (k & Hk & Hfull & Hlast).
    assert (Echunks :
              chunks
              = map (fun i => window (Py.split text) max_tokens
                                (Z.of_nat i * (max_tokens - overlap)))
                  (seq 0 (S k))) by congruence.
    clear Hrun Hk. subst chunks.
    set (words := Py.split text) in *.
    assert (Hwords : Forall is_word words) by apply split_words.
    assert (Hstart : forall i, (i <= k)%nat ->
              0 <= Z.of_nat i * (max_tokens - overlap) <= Py.len words).
    { intros i Hi. split; [nia |].
      destruct i as [| i]; [unfold Py.len; lia |].
      specialize (Hfull i ltac:(lia)). nia. }
    split; [| split].
    + rewrite Forall_forall. intros c Hc.
      apply in_map_iff in Hc. destruct Hc as (i & <- & Hi).
      apply in_seq in Hi.
      rewrite split_window by (try apply Hstart; try assumption; lia).
      unfold Py.len at 1.
      rewrite window_words_length by (try apply Hstart; lia). lia.
    + rewrite map_seq_S. cbn [chunks_without_overlap].
      rewrite flat_map_map.
      change (Z.of_nat 0 * (max_tokens - overlap)) with 0.
      rewrite split_window by (try assumption; unfold Py.len; lia).
      rewrite (flat_map_ext_in _
                 (fun i => skipn (Z.to_nat overlap)
                             (window_words words max_tokens
                                (Z.of_nat (S i) * (max_tokens - overlap))))).
      * rewrite <- (flat_map_map S
                      (fun i => skipn (Z.to_nat overlap)
                                  (window_words words max_tokens
                                     (Z.of_nat i * (max_tokens - overlap))))).
        rewrite seq_shift.
        rewrite (windows_cover words max_tokens overlap k Hom Hfull k)
          by (try apply Hstart; lia).
        rewrite Z.min_r by lia. unfold Py.len. rewrite Nat2Z.id.
        apply firstn_all.
      * intros i Hi. apply in_seq in Hi.
        rewrite split_window by (try apply Hstart; try assumption; lia).
        reflexivity.
    + intros _. unfold Py.len at 1. rewrite length_map, length_seq.
      assert (Hk' : Z.of_nat k
                    = (Py.len words - max_tokens
                       + (max_tokens - overlap) - 1)
                      / (max_tokens - overlap)).
      { apply Z.div_unique with
          (r := Py.len words - max_tokens + (max_tokens - overlap) - 1
                - (max_tokens - overlap) * Z.of_nat k).
        - left. destruct k as [| k]; [lia |].
          specialize (Hfull k ltac:(lia)). nia.
        - lia. }
      lia.
Qed.

(** ** When the chunking loop ends *)

(** A positive stride ends the loop, whatever the sign of the overlap. *)
Lemma chunk_loop_positive_stride fuel : forall words m o start chunks,
  o < m ->
  (Z.to_nat (Py.len words - start) < fuel)%nat ->
  exists r, chunk_loop fuel words m o start chunks = Some r.
Proof.
  induction fuel as [| fuel IH]; intros words m o start chunks Hom Hfuel.
  - lia.
  - cbn [chunk_loop].
    destruct (Z.ltb_spec start (Py.len words)) as [Hlt | Hge]; [| eauto].
    destruct (chunk_body words m o start chunks) as [chunks' [start' |]] eqn:Hb;
      [| eauto].
    apply chunk_body_next in Hb. destruct Hb as (-> & _ & _).
    apply IH; [exact Hom | lia].
Qed.

(** Without a positive stride a loop that is at or before the first word of
    a text longer than one window stays there. *)
Lemma chunk_loop_no_stride fuel : forall words m o start chunks,
  m <= o -> start <= 0 -> 0 < Py.len words -> m < Py.len words ->
  chunk_loop fuel words m o start chunks = None.
Proof.
  induction fuel as [| fuel IH]; intros words m o start chunks Hom Hs Hn Hm;
    [reflexivity |].
  cbn [chunk_loop].
  destruct (Z.ltb_spec start (Py.len words)) as [_ | Hge]; [| lia].
  destruct (chunk_body words m o start chunks) as [chunks' [start' |]] eqn:Hb.
  - apply chunk_body_next in Hb. destruct Hb as (-> & _ & _).
    apply IH; lia.
  - apply chunk_body_break in Hb. lia.
Qed.

(** X3.  [chunk_text] fails to return exactly when the text has more than
    [max_tokens] words, at least one, and [overlap] is not below
    [max_tokens]: then no amount of fuel gives a result.  In every other
    case it returns, and more fuel gives the same chunks. *)
Theorem chunk_text_diverges_iff text max_tokens overlap :
  let n := Py.len (Py.split text) in
  (chunk_text text max_tokens overlap = None
   <-> max_tokens <= overlap /\ max_tokens < n /\ 0 < n)
  /\ (chunk_text text max_tokens overlap = None ->
      forall fuel, chunk_text_fuel fuel text max_tokens overlap = None)
  /\ (forall chunks,
        chunk_text text max_tokens overlap = Some chunks ->
        forall fuel, (List.length (Py.split text) < fuel)%nat ->
          chunk_text_fuel fuel text max_tokens overlap = Some chunks).
Proof.
  intros n.
  assert (Hdiv : max_tokens <= overlap /\ max_tokens < n /\ 0 < n ->
                 forall fuel,
                   chunk_text_fuel fuel text max_tokens overlap = None).
  { intros (Hom & Hm & Hn) fuel. unfold chunk_text_fuel.
    rewrite split_nonempty_text
      by (intros E; unfold n in Hn; rewrite E in Hn; cbn in Hn; lia).
    cbv zeta. fold n.
    destruct (Z.leb_spec n max_tokens); [lia |].
    apply chunk_loop_no_stride; assumption || lia. }
  assert (Hret : ~ (max_tokens <= overlap /\ max_tokens < n /\ 0 < n) ->
                 exists chunks,
                   chunk_text text max_tokens overlap = Some chunks).
  { intros Hnot. unfold chunk_text, chunk_text_fuel.
    destruct (Py.is_empty text); [eauto |]. cbv zeta. fold n.
    destruct (Z.leb_spec n max_tokens) as [Hle | Hgt]; [eauto |].
    destruct (Z.lt_ge_cases overlap max_tokens) as [Hom | Hom].
    - apply chunk_loop_positive_stride; [exact Hom |]. unfold Py.len. lia.
    - exists []. cbn [chunk_loop].
      destruct (Z.ltb_spec 0 (Py.len (Py.split text))) as [Hpos | _];
        [| reflexivity].
      exfalso. apply Hnot. unfold n. lia. }
  split; [| split].
  - split.
    + intros Hnone.
      destruct (Z.le_gt_cases max_tokens overlap) as [H1 | H1];
        destruct (Z.lt_ge_cases max_tokens n) as [H2 | H2];
        destruct (Z.lt_ge_cases 0 n) as [H3 | H3]; auto;
        (destruct Hret as (chunks & Hc); [lia | congruence]).
    + intros H. apply Hdiv, H.
  - intros Hnone. apply Hdiv.
    destruct (Z.le_gt_cases max_tokens overlap) as [H1 | H1];
      destruct (Z.lt_ge_cases max_tokens n) as [H2 | H2];
      destruct (Z.lt_ge_cases 0 n) as [H3 | H3]; auto;
      (destruct Hret as (chunks & Hc); [lia | congruence]).
  - intros chunks Hsome fuel Hfuel.
    unfold chunk_text, chunk_text_fuel in *.
    destruct (Py.is_empty text); [exact Hsome |]. cbv zeta in *.
    destruct (Py.len (Py.split text) <=? max_tokens); [exact Hsome |].
    eapply chunk_loop_fuel_mono; [exact Hsome | lia].
Qed.

(** ** The range of the score *)

Lemma lower_char_idem c : Py.lower_char (Py.lower_char c) = Py.lower_char c.
Proof.
  destruct c as [[] [] [] [] [] [] [] []]; reflexivity.
Qed.

Lemma lower_idem s : Py.lower (Py.lower s) = Py.lower s.
Proof.
  induction s as [| c s IH]; cbn; [reflexivity |].
  now rewrite lower_char_idem, IH.
Qed.

Lemma content_boost_cases text query :
  let b := _calculate_content_boost text query in
  (b == 0 \/ b == 0.3 \/ b == 0.2 \/ b == 0.5)%Q.
Proof.
  unfold _calculate_content_boost. cbv zeta.
  repeat match goal with
         | |- context [if Py.any ?l then _ else _] => destruct (Py.any l)
         end;
    vm_compute; intuition congruence.
Qed.

Lemma content_boost_bounds text query :
  (0 <= _calculate_content_boost text query <= 0.5)%Q.
Proof.
  destruct (content_boost_cases text query) as [H | [H | [H | H]]];
    cbv zeta in H; rewrite H; split; unfold Qle; cbn; lia.
Qed.

(** X4.  The content boost is 0, 0.2, 0.3 or 0.5: it lies between 0 and
    0.5, so the cap at 1.0 never applies; and it does not depend on the
    letter case of the text or of the query. *)
Theorem content_boost_range text query :
  let b := _calculate_content_boost text query in
  (b == 0 \/ b == 0.3 \/ b == 0.2 \/ b == 0.5)%Q
  /\ (0 <= b <= 0.5)%Q
  /\ _calculate_content_boost (Py.lower text) (Py.lower query) = b.
Proof.
  intros b. pose proof (content_boost_cases text query) as Hcases.
  fold b in Hcases. split; [exact Hcases |]. split.
  - apply content_boost_bounds.
  - unfold b, _calculate_content_boost. now rewrite !lower_idem.
Qed.




(** ** Numbered headings *)

Lemma plus_then_first p k s :
  plus_then p k s = true -> starts_with_char p s = true.
Proof.
  destruct s as [| c s]; cbn; [discriminate |].
  intros H. apply andb_true_iff in H. tauto.
Qed.

(** X6.  A text is a numbered heading exactly when one of the first three
    patterns matches: whatever matches the fourth, digits, a dot and a
    digit, matches the first.  A numbered heading starts with a digit or
    with a capital letter from A to Z. *)
Theorem numbered_heading_patterns text :
  (re_digits_dot_digits text = true -> re_digits_dot text = true)
  /\ _is_numbered_heading text
     = re_digits_dot text || re_digits_space_AZ text || re_AZ_dot text
  /\ (_is_numbered_heading text = true ->
      starts_with_char is_digit text = true
      \/ starts_with_char is_AZ text = true).
Proof.
  assert (Hsub : re_digits_dot_digits text = true ->
                 re_digits_dot text = true).
  { unfold re_digits_dot_digits, re_digits_dot, plus_then.
    destruct text as [| c s]; [discriminate |].
    destruct (is_digit c); cbn [andb]; [| discriminate].
    destruct (drop_while is_digit s) as [| d r]; [discriminate |].
    cbn. intros H. apply andb_true_iff in H. tauto. }
  split; [exact Hsub |].
  assert (Heq : _is_numbered_heading text
                = re_digits_dot text || re_digits_space_AZ text
                  || re_AZ_dot text).
  { unfold _is_numbered_heading, Py.any. cbn [existsb].
    destruct (re_digits_dot_digits text) eqn:H4.
    - rewrite (Hsub eq_refl). reflexivity.
    - now rewrite !orb_false_r, !orb_assoc. }
  split; [exact Heq |].
  rewrite Heq, !orb_true_iff. intros [[H | H] | H].
  - left. eapply plus_then_first, H.
  - left. eapply plus_then_first, H.
  - right. destruct text as [| c s]; [discriminate |]. cbn in *.
    apply andb_true_iff in H. tauto.
Qed.

(** ** The median font size *)

Lemma Qltb_asym a b : Qltb a b = true -> Qltb b a = false.
Proof. intros H. apply (Qgtb_asym b a). exact H. Qed.

Lemma Qltb_false a b : Qltb b a = false <-> (a <= b)%Q.
Proof. unfold Qltb. rewrite negb_false_iff. apply Qle_bool_iff. Qed.

Lemma Qltb_trans a b c :
  Qltb b a = false -> Qltb c b = false -> Qltb c a = false.
Proof.
  rewrite !Qltb_false. intros H1 H2. exact (Qle_trans _ _ _ H1 H2).
Qed.

Lemma sort_Q_sorted data :
  StronglySorted Qle (sort_by Qltb (fun x => x) data).
Proof.
  eapply StronglySorted_weaken;
    [| apply (sort_by_sorted Qltb (fun x => x) Qltb_asym Qltb_trans)].
  intros a b Hab. apply Qltb_false, Hab.
Qed.

Lemma sorted_nth_le (l : list Q) :
  StronglySorted Qle l ->
  forall i j, (i <= j < List.length l)%nat -> (nth i l 0 <= nth j l 0)%Q.
Proof.
  induction 1 as [| x l Hs IH Hall]; intros i j Hij; cbn in Hij; [lia |].
  destruct i as [| i], j as [| j]; cbn [nth]; try lia.
  - apply Qle_refl.
  - rewrite Forall_forall in Hall. apply Hall, nth_In. lia.
  - apply IH. lia.
Qed.

(** The median lies between the two middle elements of the sorted data. *)
Lemma median_between data :
  data <> [] ->
  exists m srt,
    median data = Ok m
    /\ Permutation srt data
    /\ StronglySorted Qle srt
    /\ (nth ((List.length srt - 1) / 2) srt 0 <= m)%Q
    /\ (m <= nth (List.length srt / 2) srt 0)%Q.
Proof.
  intros Hne. unfold median, sorted.
  set (srt := sort_by Qltb (fun x => x) data).
  assert (Hperm : Permutation srt data) by apply sort_by_perm.
  assert (Hsorted : StronglySorted Qle srt) by apply sort_Q_sorted.
  assert (Hpos : (0 < List.length srt)%nat).
  { rewrite (Permutation_length Hperm).
    destruct data; [congruence | cbn; lia]. }
  set (n := List.length srt) in *.
  assert (Hhalf : (n / 2 < n)%nat) by (apply Nat.div_lt; lia).
  destruct (Nat.eqb_spec n 0) as [E | _]; [lia |].
  destruct (Nat.eqb_spec (n mod 2) 1) as [Hodd | Heven].
  - exists (nth (n / 2) srt 0%Q), srt. repeat split; try assumption.
    + apply sorted_nth_le; [exact Hsorted |]. fold n. split; [| lia].
      apply Nat.Div0.div_le_mono. lia.
    + apply Qle_refl.
  - assert (Hmod : (n mod 2 = 0)%nat).
    { pose proof (Nat.mod_upper_bound n 2). lia. }
    assert (Hn : n = (2 * (n / 2))%nat).
    { pose proof (Nat.div_mod_eq n 2). lia. }
    assert (Hidx : ((n - 1) / 2 = n / 2 - 1)%nat).
    { rewrite Hn at 1.
      replace (2 * (n / 2) - 1)%nat with (1 + (n / 2 - 1) * 2)%nat by lia.
      rewrite Nat.div_add by lia. reflexivity. }
    pose proof (sorted_nth_le srt Hsorted (n / 2 - 1) (n / 2)
                  ltac:(fold n; lia)) as Hle.
    eexists. exists srt. split; [reflexivity |].
    repeat split; try assumption.
    + fold n. rewrite Hidx. apply Qle_shift_div_l; [reflexivity | lra].
    + fold n. apply Qle_shift_div_r; [reflexivity | lra].
Qed.

Lemma median_positive data :
  data <> [] -> Forall (fun x => 0 < x)%Q data ->
  exists m, median data = Ok m /\ (0 < m)%Q.
Proof.
  intros Hne Hall.
  destruct (median_between data Hne) as (m & srt & Hm & Hperm & _ & Hlo & _).
  exists m. split; [exact Hm |].
  eapply Qlt_le_trans; [| exact Hlo].
  assert (Hall' : Forall (fun x => 0 < x)%Q srt)
    by (eapply Permutation_Forall; [apply Permutation_sym, Hperm | exact Hall]).
  rewrite Forall_forall in Hall'. apply Hall', nth_In.
  assert (0 < List.length srt)%nat.
  { rewrite (Permutation_length Hperm). destruct data; [congruence | cbn; lia]. }
  pose proof (Nat.Div0.div_le_upper_bound (List.length srt - 1) 2
                (List.length srt - 1)). lia.
Qed.

Lemma positive_font_sizes blocks :
  Forall (fun x => 0 < x)%Q
    (filter (fun s => Qltb 0 s) (map Block.fontsize blocks)).
Proof.
  rewrite Forall_forall. intros x Hx. apply filter_In in Hx.
  apply Qltb_lt. tauto.
Qed.

(** X7.  [extract_outline] raises, and logs the error, in three cases: the
    file does not open, the document has no page, no block has a positive
    font size.  In every other case it returns: the median of the positive
    font sizes exists and is positive (no ratio divides by zero), the sort
    of the headings does not raise, and nothing is logged. *)
Theorem extract_outline_cases pdf_path :
  match fitz_open pdf_path with
  | Err e =>
      extract_outline pdf_path
      = (Err e, [LogError ("Error extracting outline: " ++ str_of_exn e)])
  | Ok [] =>
      extract_outline pdf_path
      = (Err (ValueError "PDF has no pages"),
         [LogError "Error extracting outline: PDF has no pages"])
  | Ok doc =>
      let blocks := all_blocks_from 0 doc in
      match filter (fun s => Qltb 0 s) (map Block.fontsize blocks) with
      | [] =>
          extract_outline pdf_path
          = (Err (ValueError "No text with font size information found"),
             [LogError ("Error extracting outline: "
                        ++ "No text with font size information found")])
      | font_sizes =>
          exists median_fontsize headings,
            median font_sizes = Ok median_fontsize
            /\ (0 < median_fontsize)%Q
            /\ _extract_headings blocks median_fontsize = Ok headings
            /\ extract_outline pdf_path
               = (Ok (mkOutline (_extract_title blocks median_fontsize)
                        headings), [])
      end
  end.
Proof.
  unfold extract_outline.
  destruct (fitz_open pdf_path) as [[| page doc] | e]; try reflexivity.
  cbn [lift bind]. change (Py.len (page :: doc) =? 0) with false. cbv iota.
  set (blocks := all_blocks_from 0 (page :: doc)).
  pose proof (positive_font_sizes blocks) as Hpos.
  destruct (filter _ (map Block.fontsize blocks)) as [| s0 sizes];
    [reflexivity |].
  destruct (median_positive (s0 :: sizes)) as (m & Hm & Hmpos);
    [discriminate | exact Hpos |].
  destruct (extract_headings_ok blocks m) as (headings & Hh & _).
  exists m, headings. rewrite Hm, Hh. repeat split; assumption.
Qed.

(** ** How many blocks become headings *)


Lemma filter_length_mono {A} (f g : A -> bool) l :
  (forall x, In x l -> f x = true -> g x = true) ->
  (List.length (filter f l) <= List.length (filter g l))%nat.
Proof.
  induction l as [| x l IH]; intros H; cbn; [lia |].
  assert (IH' := IH (fun y Hy => H y (or_intror Hy))).
  destruct (f x) eqn:Hf.
  - rewrite (H x (or_introl eq_refl) Hf). cbn. lia.
  - destruct (g x); cbn; lia.
Qed.

Lemma filter_map_length {A B} (f : A -> B) (p : B -> bool) l :
  List.length (filter p (map f l))
  = List.length (filter (fun x => p (f x)) l).
Proof.
  induction l as [| x l IH]; cbn; [reflexivity |].
  destruct (p (f x)); cbn; now rewrite IH.
Qed.




(** ** The title *)




(** ** Bold text *)

Lemma land_bit4_zero flags :
  (Z.land flags (2 ^ 4) =? 0) = negb (Z.testbit flags 4).
Proof.
  destruct (Z.testbit flags 4) eqn:Hbit; cbn [negb].
  - apply Z.eqb_neq. intros H.
    apply (f_equal (fun z => Z.testbit z 4)) in H.
    rewrite Z.land_spec, Hbit in H. discriminate.
  - apply Z.eqb_eq, Z.bits_inj'. intros n Hn.
    rewrite Z.land_spec, Z.bits_0, Z.pow2_bits_eqb by lia.
    destruct (Z.eqb_spec 4 n) as [<- | _];
      [now rewrite Hbit | apply andb_false_r].
Qed.

Lemma lower_app a b : Py.lower (a ++ b) = Py.lower a ++ Py.lower b.
Proof.
  induction a as [| c a IH]; cbn; [reflexivity | now rewrite IH].
Qed.

Lemma prefix_app w s : String.prefix w (w ++ s) = true.
Proof.
  induction w as [| c w IH]; cbn; [now destruct s |].
  destruct (ascii_dec c c); [exact IH | congruence].
Qed.

Lemma contains_app w pre post :
  Py.contains w (pre ++ w ++ post) = true.
Proof.
  induction pre as [| c pre IH]; cbn [append].
  - destruct (w ++ post) eqn:E; cbn [Py.contains];
      rewrite <- E, prefix_app; reflexivity.
  - cbn [Py.contains]. rewrite IH. apply orb_true_r.
Qed.

(** X10.  A line is bold exactly when its font name contains "bold" in any
    letter case or bit 4 of its flags is set; the other bits of the flags
    play no part. *)
Theorem is_bold_spec fontname flags :
  _is_bold fontname flags
  = Py.contains "bold" (Py.lower fontname) || Z.testbit flags 4
  /\ (forall pre w post,
        Py.lower w = "bold" -> _is_bold (pre ++ w ++ post) flags = true)
  /\ (forall flags',
        Z.testbit flags' 4 = Z.testbit flags 4 ->
        _is_bold fontname flags' = _is_bold fontname flags).
Proof.
  assert (Heq : forall f,
            _is_bold fontname f
            = Py.contains "bold" (Py.lower fontname) || Z.testbit f 4).
  { intros f. unfold _is_bold. rewrite land_bit4_zero, negb_involutive.
    destruct (Py.contains "bold" (Py.lower fontname)); reflexivity. }
  split; [apply Heq |]. split.
  - intros pre w post Hw. unfold _is_bold.
    rewrite !lower_app, Hw, contains_app. reflexivity.
  - intros flags' Hbit. rewrite !Heq, Hbit. reflexivity.
Qed.

(** ** The sections of a document *)

Lemma extract_outline_headings pdf_path result log :
  extract_outline pdf_path = (Ok result, log) ->
  exists doc m,
    fitz_open pdf_path = Ok doc
    /\ Permutation (outline result)
         (map (heading_of_block m)
            (filter (fun b => _is_heading_candidate b m)
               (all_blocks_from 0 doc))).
Proof.
  unfold extract_outline.
  destruct (fitz_open pdf_path) as [doc | e]; [| discriminate].
  cbn [lift bind].
  destruct (Py.len doc =? 0); [discriminate |].
  destruct (filter _ (map Block.fontsize (all_blocks_from 0 doc)))
    as [| s0 sizes]; [discriminate |].
  destruct (median (s0 :: sizes)) as [m | e]; [| discriminate].
  cbn [lift bind].
  destruct (extract_headings_ok (all_blocks_from 0 doc) m)
    as (headings & Hh & Hperm).
  rewrite Hh. cbn. intros H. inversion H; subst. cbn [outline].
  exists doc, m. auto.
Qed.

Lemma determine_heading_level_values block median_fontsize :
  In (_determine_heading_level block median_fontsize) ["H1"; "H2"; "H3"].
Proof.
  unfold _determine_heading_level.
  destruct (Qleb min_h1_font_ratio _); [cbn; auto |].
  destruct (Qleb min_h2_font_ratio _); cbn; auto.
Qed.

Lemma section_of_heading_fields doc outline i heading s :
  section_of_heading doc outline i heading = Ok s ->
  Sec.section_title s = Heading.text heading
  /\ Sec.level s = Heading.level heading
  /\ Sec.page s = Heading.page heading
  /\ Sec.chunks s = chunk_text_200_50 (Sec.text s)
  /\ Sec.importance_rank s = 0%nat
  /\ Sec.document s = None
  /\ Sec.relevance_score s = None
  /\ _clean_text (Sec.text s) = Sec.text s.
Proof.
  unfold section_of_heading.
  destruct (read_pages _ _ _) as [section_text | e]; [| discriminate].
  intros H. inversion H; subst; clear H.
  cbn [Sec.section_title Sec.level Sec.page Sec.chunks Sec.text
       Sec.importance_rank Sec.document Sec.relevance_score].
  repeat split.
  rewrite !clean_text_normalizes. unfold normalize_ws at 1.
  now rewrite normalize_ws_split.
Qed.

(** Every section of a document comes from a heading of its outline. *)
Lemma document_sections_origin pdf_path s :
  In s (document_sections pdf_path) ->
  exists doc result log heading s0,
    fitz_open pdf_path = Ok doc
    /\ extract_outline pdf_path = (Ok result, log)
    /\ In heading (outline result)
    /\ (exists i, section_of_heading doc (outline result) i heading = Ok s0)
    /\ s = Sec.set_document (name pdf_path) s0.
Proof.
  unfold document_sections, document_result.
  destruct (extract_outline pdf_path) as [[result | e] log] eqn:Hout;
    [| contradiction].
  destruct (extract_outline_pages pdf_path result log Hout)
    as (doc & Hopen & Hpages).
  cbn [bind]. unfold _extract_full_sections. rewrite Hopen. cbn [lift bind].
  destruct (sections_loop_all doc (outline result) (outline result) 0 [])
    as (new & Hloop & Hlen & Hnth).
  { eapply Forall_impl; [| exact Hpages]. intros h [Hh _]. exact Hh. }
  rewrite Hloop. cbn. intros Hs.
  apply in_map_iff in Hs. destruct Hs as (s0 & <- & Hs0).
  apply In_nth_error in Hs0. destruct Hs0 as (j & Hj).
  assert (Hjlen : (j < List.length (outline result))%nat).
  { rewrite <- Hlen. apply nth_error_Some. congruence. }
  destruct (nth_error (outline result) j) as [heading |] eqn:Hh;
    [| apply nth_error_None in Hh; lia].
  destruct (Hnth j heading Hh) as (s1 & Hs1 & Hsec).
  rewrite Hj in Hs1. inversion Hs1; subst s1.
  exists doc, result, log, heading, s0.
  repeat split; eauto using nth_error_In.
Qed.

(** X11.  Every section that enters the ranking carries the title, level
    and page of a heading of its document, on a page of that document; its
    level is H1, H2 or H3, so its level weight is 1.0, 0.7 or 0.4 and the
    weights 1.2 and 0.5 are never used; it names its document; its text is
    in normal form and its chunks are those of [chunk_text] with 200 and
    50. *)
Theorem document_sections_fields pdf_path s :
  In s (document_sections pdf_path) ->
  In (Sec.level s) ["H1"; "H2"; "H3"]
  /\ In (dict_get level_weights (Sec.level s) 0.5%Q) [1.0%Q; 0.7%Q; 0.4%Q]
  /\ Sec.document s = Some (name pdf_path)
  /\ (exists doc,
        fitz_open pdf_path = Ok doc
        /\ (1 <= Sec.page s <= List.length doc)%nat)
  /\ _clean_text (Sec.text s) = Sec.text s
  /\ chunk_text (Sec.text s) 200 50 = Some (Sec.chunks s)
  /\ Sec.relevance_score s = None.
Proof.
  intros Hs.
  destruct (document_sections_origin pdf_path s Hs)
    as (doc & result & log & heading & s0 & Hopen & Hout & Hh & (i & Hsec)
        & ->).
  destruct (section_of_heading_fields _ _ _ _ _ Hsec)
    as (_ & Hlevel & Hpage & Hchunks & _ & _ & Hrel & Hclean).
  destruct (extract_outline_headings _ _ _ Hout) as (doc' & m & _ & Hperm).
  destruct (extract_outline_pages _ _ _ Hout) as (doc'' & Hopen'' & Hpages).
  rewrite Hopen in Hopen''. inversion Hopen''; subst doc''.
  assert (Hlev : In (Sec.level s0) ["H1"; "H2"; "H3"]).
  { rewrite Hlevel.
    apply (Permutation_in _ Hperm) in Hh. apply in_map_iff in Hh.
    destruct Hh as (b & <- & _). apply determine_heading_level_values. }
  cbn [Sec.set_document Sec.level Sec.document Sec.page Sec.text Sec.chunks
       Sec.relevance_score].
  split; [exact Hlev |]. split.
  { destruct Hlev as [<- | [<- | [<- | []]]]; cbn; auto. }
  split; [reflexivity |]. split.
  { exists doc. split; [exact Hopen |]. rewrite Hpage.
    rewrite Forall_forall in Hpages. apply Hpages, Hh. }
  split; [exact Hclean |]. split; [| exact Hrel].
  rewrite Hchunks. unfold chunk_text_200_50.
  destruct (chunk_text_200_50_returns (Sec.text s0)) as (chunks & ->).
  reflexivity.
Qed.

(** ** What the ranking returns *)

Section RankResultFacts.
Variable similarity_backend : list string -> string -> list Q.
Hypothesis backend_length : forall texts query,
  List.length (similarity_backend texts query) = List.length texts.


End RankResultFacts.

(** ** The two rounds *)

(** X13.  Neither round raises: each returns a result or an error record.
    Round 1A returns the outline of a valid file that [extract_outline]
    accepts, under the name of the file; its error record carries the
    message of the exception. *)
Theorem rounds_never_raise :
  (forall pdf_path,
      exists r log,
        process_round_1a pdf_path = (Ok r, log)
        /\ match r with
           | Round1A_result o filename =>
               validate_pdf pdf_path = true
               /\ fst (extract_outline pdf_path) = Ok o
               /\ filename = name pdf_path
           | Round1A_error error filename =>
               filename = name pdf_path
               /\ (validate_pdf pdf_path = false
                   /\ error = "Invalid PDF file: " ++ name pdf_path
                   \/ validate_pdf pdf_path = true
                      /\ exists e, fst (extract_outline pdf_path) = Err e
                                   /\ error = str_of_exn e)
           end)
  /\ (forall similarity_backend pdf_paths persona job_description,
        exists r log,
          process_round_1b similarity_backend pdf_paths persona
            job_description = (Ok r, log)).
Proof.
  split.
  - intros pdf_path. unfold process_round_1a.
    destruct (validate_pdf pdf_path) eqn:Hv; cbn [negb].
    + destruct (extract_outline pdf_path) as [[o | e] l] eqn:Hout.
      * exists (Round1A_result o (name pdf_path)). eexists.
        split; [cbn; reflexivity |]. cbn. auto.
      * exists (Round1A_error (str_of_exn e) (name pdf_path)). eexists.
        split; [cbn; reflexivity |]. cbn.
        split; [reflexivity |]. right. eauto.
    + exists (Round1A_error ("Invalid PDF file: " ++ name pdf_path)
                (name pdf_path)). eexists.
      split; [cbn; reflexivity |]. cbn. auto.
  - intros backend pdf_paths persona job. unfold process_round_1b.
    destruct (validate_all_filter pdf_paths []) as (log & Hlog).
    rewrite Hlog. cbn [app bind].
    destruct (filter validate_pdf pdf_paths) as [| v vs].
    + eexists. eexists. reflexivity.
    + destruct (rank_sections backend (v :: vs) persona job)
        as [[result | e] log']; eexists; eexists; reflexivity.
Qed.

(** X14.  [validate_pdf] accepts a file exactly when it exists, is not
    empty, opens, and has between 1 and 50 pages.  For an accepted file the
    only error [extract_outline] can raise is the lack of text with a font
    size. *)
Theorem validate_pdf_accepts_iff pdf_path :
  (validate_pdf pdf_path = true
   <-> exists_ pdf_path = true
       /\ st_size pdf_path <> 0
       /\ exists doc,
            pdf pdf_path = Some doc /\ (1 <= List.length doc <= 50)%nat)
  /\ (validate_pdf pdf_path = true ->
      forall e log,
        extract_outline pdf_path = (Err e, log) ->
        e = ValueError "No text with font size information found").
Proof.
  assert (Hiff : validate_pdf pdf_path = true
                 <-> exists_ pdf_path = true
                     /\ st_size pdf_path <> 0
                     /\ exists doc,
                          pdf pdf_path = Some doc
                          /\ (1 <= List.length doc <= 50)%nat).
  { unfold validate_pdf, fitz_open. split.
    - destruct (exists_ pdf_path); cbn [negb]; [| discriminate].
      destruct (Z.eqb_spec (st_size pdf_path) 0); [discriminate |].
      destruct (pdf pdf_path) as [doc |]; [| discriminate].
      unfold Py.len.
      destruct (Z.eqb_spec (Z.of_nat (List.length doc)) 0); [discriminate |].
      destruct (Z.gtb_spec (Z.of_nat (List.length doc)) 50); [discriminate |].
      intros _. repeat split; try assumption. exists doc. split; [auto | lia].
    - intros (-> & Hsize & doc & -> & Hlen). cbn [negb].
      destruct (Z.eqb_spec (st_size pdf_path) 0); [contradiction |].
      unfold Py.len.
      destruct (Z.eqb_spec (Z.of_nat (List.length doc)) 0); [lia |].
      destruct (Z.gtb_spec (Z.of_nat (List.length doc)) 50); [lia |].
      reflexivity. }
  split; [exact Hiff |].
  intros Hv e log Hout. apply Hiff in Hv.
  destruct Hv as (Hex & _ & doc & Hpdf & Hlen).
  unfold extract_outline, fitz_open in Hout. rewrite Hex, Hpdf in Hout.
  cbn [lift bind] in Hout.
  destruct doc as [| page doc]; [cbn in Hlen; lia |].
  change (Py.len (page :: doc) =? 0) with false in Hout. cbv iota in Hout.
  set (blocks := all_blocks_from 0 (page :: doc)) in *.
  pose proof (positive_font_sizes blocks) as Hpos.
  destruct (filter _ (map Block.fontsize blocks)) as [| s0 sizes].
  - cbn in Hout. inversion Hout. reflexivity.
  - destruct (median_positive (s0 :: sizes)) as (m & Hm & _);
      [discriminate | exact Hpos |].
    destruct (extract_headings_ok blocks m) as (headings & Hh & _).
    rewrite Hm in Hout. cbn [lift bind] in Hout. rewrite Hh in Hout.
    cbn in Hout. discriminate.
Qed.

(** ** Stopwords *)

Lemma in_set_In w set : in_set w set = true <-> In w set.
Proof.
  unfold in_set. rewrite existsb_exists. split.
  - intros (x & Hx & E). apply String.eqb_eq in E. now subst.
  - intros H. exists w. split; [exact H | apply String.eqb_refl].
Qed.

Lemma split_from_chars p s : forall cur,
  all_chars p cur = true -> all_chars p s = true ->
  Forall (fun w => all_chars p w = true) (Py.split_from cur s).
Proof.
  induction s as [| c s IH]; intros cur Hcur Hs; cbn [Py.split_from].
  - destruct (Py.is_empty cur); repeat constructor. exact Hcur.
  - cbn in Hs. apply andb_true_iff in Hs. destruct Hs as [Hc Hs].
    destruct (Py.isspace c).
    + destruct (Py.is_empty cur); [| constructor; [exact Hcur |]];
        apply IH; auto.
    + apply IH; [| exact Hs]. rewrite all_chars_app, Hcur. cbn.
      now rewrite Hc.
Qed.

Lemma lower_all_lower s : all_chars is_lower_char (Py.lower s) = true.
Proof.
  induction s as [| c s IH]; cbn; [reflexivity |].
  rewrite IH, andb_true_r. unfold is_lower_char.
  rewrite lower_char_idem. apply Ascii.eqb_refl.
Qed.

Lemma lower_fixed s : all_chars is_lower_char s = true -> Py.lower s = s.
Proof.
  induction s as [| c s IH]; cbn; [reflexivity |].
  rewrite andb_true_iff. intros [Hc Hs]. unfold is_lower_char in Hc.
  apply Ascii.eqb_eq in Hc. now rewrite Hc, IH.
Qed.

Lemma filter_idem {A} (f : A -> bool) l : filter f (filter f l) = filter f l.
Proof.
  induction l as [| x l IH]; cbn; [reflexivity |].
  destruct (f x) eqn:E; cbn; [rewrite E |]; now rewrite ?IH.
Qed.

Lemma Forall_filter {A} (P : A -> Prop) (f : A -> bool) l :
  Forall P l -> Forall P (filter f l).
Proof.
  induction 1 as [| x l Hx Hl IH]; cbn; [constructor |].
  destruct (f x); [constructor |]; assumption.
Qed.

(** X15.  The words of the output of [remove_stopwords] are the lowercase
    words of the text that are not stopwords, in order; none of them is a
    basic stopword or one of the additional ones; the output is in lower
    case, and removing the stopwords again changes nothing. *)
Theorem remove_stopwords_spec text additional_stopwords :
  let out := remove_stopwords text additional_stopwords in
  Py.split out
  = filter (fun w => negb (in_set w basic_stopwords)
                     && negb (in_set w
                                (match additional_stopwords with
                                 | Some ws => ws
                                 | None => []
                                 end)))
      (Py.split (Py.lower text))
  /\ (forall w, In w (Py.split out) ->
        ~ In w basic_stopwords
        /\ forall ws, additional_stopwords = Some ws -> ~ In w ws)
  /\ Py.lower out = out
  /\ remove_stopwords out additional_stopwords = out.
Proof.
  intros out. unfold out, remove_stopwords.
  set (stopwords := match additional_stopwords with
                    | Some (w :: ws) => (basic_stopwords ++ w :: ws)%list
                    | _ => basic_stopwords
                    end).
  set (keep := fun word => negb (in_set word stopwords)).
  set (words := Py.split (Py.lower text)).
  assert (Hstop : forall w,
            in_set w stopwords
            = in_set w basic_stopwords
              || in_set w (match additional_stopwords with
                           | Some ws => ws
                           | None => []
                           end)).
  { intros w. unfold stopwords, in_set.
    destruct additional_stopwords as [[| a ws] |]; cbn [existsb];
      rewrite ?existsb_app, ?orb_false_r; reflexivity. }
  assert (Hsplit : Py.split (Py.join " " (filter keep words))
                   = filter keep words).
  { apply split_join_words, Forall_filter, split_words. }
  assert (Hlower : Py.lower (Py.join " " (filter keep words))
                   = Py.join " " (filter keep words)).
  { apply lower_fixed, join_chars; [reflexivity |].
    apply Forall_filter. apply split_from_chars; [reflexivity |].
    apply lower_all_lower. }
  split; [| split; [| split]].
  - rewrite Hsplit. apply filter_ext. intros w. unfold keep.
    rewrite Hstop. apply negb_orb.
  - intros w Hw. rewrite Hsplit in Hw. apply filter_In in Hw.
    destruct Hw as [_ Hw]. unfold keep in Hw.
    rewrite Hstop, negb_orb, andb_true_iff, !negb_true_iff in Hw.
    destruct Hw as [Hb Ha]. split.
    + intros Hin. apply in_set_In in Hin. congruence.
    + intros ws -> Hin. apply in_set_In in Hin. congruence.
  - exact Hlower.
  - rewrite Hlower, Hsplit. fold keep. now rewrite filter_idem.
Qed.

(** ** Language detection *)

Lemma prefix_split w : forall s,
  String.prefix w s = true -> exists rest, s = w ++ rest.
Proof.
  induction w as [| c w IH]; intros s H; [exists s; reflexivity |].
  destruct s as [| d s]; [discriminate |]. cbn in H.
  destruct (ascii_dec c d) as [<- | _]; [| discriminate].
  destruct (IH s H) as (rest & ->). exists rest. reflexivity.
Qed.

Lemma contains_split w : forall s,
  Py.contains w s = true -> exists pre post, s = pre ++ w ++ post.
Proof.
  induction s as [| c s IH]; cbn [Py.contains]; intros H.
  - rewrite orb_false_r in H. apply prefix_split in H.
    destruct H as (rest & ->). exists "", rest. reflexivity.
  - apply orb_true_iff in H. destruct H as [H | H].
    + apply prefix_split in H. destruct H as (rest & ->).
      exists "", rest. reflexivity.
    + destruct (IH H) as (pre & post & ->).
      exists (String c pre), post. reflexivity.
Qed.

Lemma contains_context w s pre post :
  Py.contains w s = true -> Py.contains w (pre ++ s ++ post) = true.
Proof.
  intros H. apply contains_split in H. destruct H as (a & b & ->).
  replace (pre ++ (a ++ w ++ b) ++ post)
    with ((pre ++ a) ++ w ++ (b ++ post))
    by now rewrite !str_app_assoc.
  apply contains_app.
Qed.

(** X16.  Language detection looks at the lowercase text only, and text
    around an English text does not undo the detection: the indicators are
    searched as substrings, so every indicator found in a text is found in
    any text that contains it. *)
Theorem detect_language_context text :
  detect_language (Py.lower text) = detect_language text
  /\ (forall pre post, (english_count text
                        <= english_count (pre ++ text ++ post))%nat)
  /\ (forall pre post,
        detect_language text = "en" ->
        detect_language (pre ++ text ++ post) = "en").
Proof.
  assert (Hmono : forall pre post,
            (english_count text <= english_count (pre ++ text ++ post))%nat).
  { intros pre post. unfold english_count.
    apply filter_length_mono. intros w _ Hw.
    rewrite !lower_app. apply contains_context, Hw. }
  split; [| split; [exact Hmono |]].
  - unfold detect_language, english_count. now rewrite lower_idem.
  - intros pre post. unfold detect_language.
    specialize (Hmono pre post).
    destruct (Nat.ltb_spec 3 (english_count text)); [| discriminate].
    destruct (Nat.ltb_spec 3 (english_count (pre ++ text ++ post)));
      [reflexivity | lia].
Qed.

(** ** Cleaning JSON output *)

Section PyvalInduction.
Variable P : pyval -> Prop.
Hypothesis HNone : P PNone.
Hypothesis HBool : forall b, P (PBool b).
Hypothesis HInt : forall z, P (PInt z).
Hypothesis HFloat : forall q, P (PFloat q).
Hypothesis HStr : forall s, P (PStr s).
Hypothesis HList : forall l, Forall P l -> P (PList l).
Hypothesis HDict : forall items,
  Forall (fun kv => P (snd kv)) items -> P (PDict items).

Fixpoint pyval_induction (v : pyval) : P v :=
  match v with
  | PNone => HNone
  | PBool b => HBool b
  | PInt z => HInt z
  | PFloat q => HFloat q
  | PStr s => HStr s
  | PList l =>
      HList l
        ((fix go (l : list pyval) : Forall P l :=
            match l with
            | [] => Forall_nil P
            | x :: r => Forall_cons x (pyval_induction x) (go r)
            end) l)
  | PDict items =>
      HDict items
        ((fix go (items : list (string * pyval))
            : Forall (fun kv => P (snd kv)) items :=
            match items with
            | [] => Forall_nil _
            | kv :: r =>
                Forall_cons kv (pyval_induction (snd kv)) (go r)
            end) items)
  end.
End PyvalInduction.

Lemma clean_dict items :
  clean_json_output (PDict items) = PDict (clean_items items).
Proof.
  cbn [clean_json_output]. f_equal. unfold clean_items.
  induction items as [| [k v] items IH]; [reflexivity |].
  cbn [filter map fst snd]. rewrite IH.
  destruct (is_none v); reflexivity.
Qed.

Lemma is_clean_dict items :
  is_clean (PDict items)
  <-> Forall (fun kv => is_none (snd kv) = false /\ is_clean (snd kv)) items.
Proof.
  induction items as [| [k v] items IH].
  - cbn. split; [constructor | trivial].
  - change (is_clean (PDict ((k, v) :: items)))
      with (is_none v = false /\ is_clean v /\ is_clean (PDict items)).
    rewrite IH. split.
    + intros (H1 & H2 & H3). constructor; auto.
    + intros H. inversion H; subst. cbn in *. tauto.
Qed.

Lemma is_clean_list l : is_clean (PList l) <-> Forall is_clean l.
Proof.
  induction l as [| x l IH].
  - cbn. split; [constructor | trivial].
  - change (is_clean (PList (x :: l)))
      with (is_clean x /\ is_clean (PList l)).
    rewrite IH. split.
    + intros [H1 H2]. constructor; auto.
    + intros H. inversion H; subst. tauto.
Qed.

Lemma rstrip_idem s : Py.rstrip (Py.rstrip s) = Py.rstrip s.
Proof.
  induction s as [| c s IH]; [reflexivity |]. cbn [Py.rstrip].
  destruct (Py.is_empty (Py.rstrip s) && Py.isspace c) eqn:E;
    [reflexivity |].
  cbn [Py.rstrip]. rewrite IH, E. reflexivity.
Qed.

Lemma strip_idem s : Py.strip (Py.strip s) = Py.strip s.
Proof.
  unfold Py.strip.
  assert (H : Py.lstrip s = ""
              \/ exists c r, Py.lstrip s = String c r
                             /\ Py.isspace c = false).
  { induction s as [| c s IH]; [now left |]. cbn [Py.lstrip].
    destruct (Py.isspace c) eqn:E; [exact IH | right; eauto]. }
  destruct H as [-> | (c & r & -> & Hc)]; [reflexivity |].
  cbn [Py.rstrip]. rewrite Hc, andb_false_r.
  cbn [Py.lstrip]. rewrite Hc.
  cbn [Py.rstrip]. rewrite rstrip_idem, Hc, andb_false_r. reflexivity.
Qed.

Lemma clean_not_none v :
  is_none v = false -> is_none (clean_json_output v) = false.
Proof. destruct v; cbn; auto. Qed.

(** X17.  [clean_json_output] drops from every dictionary, at any depth,
    the items whose value is [None], keeps the other keys in their order,
    strips every string, and keeps [None] inside lists; what it returns has
    nothing left to clean, so cleaning twice is cleaning once. *)
Theorem clean_json_output_idempotent data :
  is_clean (clean_json_output data)
  /\ clean_json_output (clean_json_output data) = clean_json_output data
  /\ (forall items,
        data = PDict items ->
        exists items',
          clean_json_output data = PDict items'
          /\ map fst items'
             = map fst (filter (fun kv => negb (is_none (snd kv))) items))
  /\ (forall l,
        data = PList l ->
        exists l',
          clean_json_output data = PList l'
          /\ List.length l' = List.length l
          /\ List.length (filter is_none l')
             = List.length (filter is_none l)).
Proof.
  assert (Hmain : is_clean (clean_json_output data)
                  /\ clean_json_output (clean_json_output data)
                     = clean_json_output data).
  { induction data as [| b | z | q | s | l IH | items IH]
      using pyval_induction; try (split; reflexivity).
    - cbn. split; [apply strip_idem | now rewrite strip_idem].
    - cbn [clean_json_output]. split.
      + apply is_clean_list. rewrite Forall_forall. intros x Hx.
        apply in_map_iff in Hx. destruct Hx as (y & <- & Hy).
        rewrite Forall_forall in IH. apply IH, Hy.
      + f_equal. rewrite map_map. apply map_ext_in. intros x Hx.
        rewrite Forall_forall in IH. apply IH, Hx.
    - rewrite !clean_dict. split.
      + apply is_clean_dict. unfold clean_items.
        rewrite Forall_forall. intros kv Hkv.
        apply in_map_iff in Hkv. destruct Hkv as ([k v] & <- & Hin).
        apply filter_In in Hin. destruct Hin as [Hin Hnone].
        cbn [fst snd] in *. apply negb_true_iff in Hnone.
        rewrite Forall_forall in IH.
        split; [apply clean_not_none, Hnone | apply (IH _ Hin)].
      + f_equal. unfold clean_items.
        rewrite (forallb_filter_id
                   (fun kv => negb (is_none (snd kv)))).
        * rewrite map_map. apply map_ext_in. intros [k v] Hin.
          cbn [fst snd]. f_equal.
          apply filter_In in Hin. destruct Hin as [Hin _].
          rewrite Forall_forall in IH. apply (IH _ Hin).
        * rewrite forallb_forall. intros kv Hkv.
          apply in_map_iff in Hkv. destruct Hkv as ([k v] & <- & Hin).
          apply filter_In in Hin. destruct Hin as [_ Hnone].
          cbn [fst snd] in *. apply negb_true_iff in Hnone.
          apply negb_true_iff, clean_not_none, Hnone. }
  destruct Hmain as [Hclean Hidem].
  split; [exact Hclean |]. split; [exact Hidem |]. split.
  - intros items ->. rewrite clean_dict. eexists. split; [reflexivity |].
    unfold clean_items. rewrite map_map. reflexivity.
  - intros l ->. cbn [clean_json_output]. eexists. split; [reflexivity |].
    split; [apply length_map |].
    rewrite filter_map_length. f_equal. apply filter_ext.
    intros x. destruct x; reflexivity.
Qed.

(** ** Lines into blocks *)

Lemma py_min_le a b : (py_min a b <= a /\ py_min a b <= b)%Q.
Proof.
  unfold py_min. destruct (Qltb b a) eqn:E.
  - apply Qltb_lt in E. split; [apply Qlt_le_weak, E | apply Qle_refl].
  - apply Qltb_false in E. split; [apply Qle_refl | exact E].
Qed.

Lemma py_max_ge a b : (a <= py_max a b /\ b <= py_max a b)%Q.
Proof.
  unfold py_max. destruct (Qltb a b) eqn:E.
  - apply Qltb_lt in E. split; [apply Qlt_le_weak, E | apply Qle_refl].
  - apply Qltb_false in E. split; [apply Qle_refl | exact E].
Qed.

Lemma bbox_encloses_refl b : bbox_encloses b b.
Proof.
  destruct b as [[[b0 b1] b2] b3]. cbn. repeat split; apply Qle_refl.
Qed.

Lemma bbox_encloses_trans a b c :
  bbox_encloses a b -> bbox_encloses b c -> bbox_encloses a c.
Proof.
  destruct a as [[[a0 a1] a2] a3], b as [[[b0 b1] b2] b3],
    c as [[[c0 c1] c2] c3]. cbn.
  intros (H0 & H1 & H2 & H3) (K0 & K1 & K2 & K3).
  repeat split; eapply Qle_trans; eassumption.
Qed.

Lemma merge_bbox_encloses a b :
  bbox_encloses (merge_bbox a b) a /\ bbox_encloses (merge_bbox a b) b.
Proof.
  destruct a as [[[a0 a1] a2] a3], b as [[[b0 b1] b2] b3]. cbn.
  pose proof (py_min_le a0 b0). pose proof (py_min_le a1 b1).
  pose proof (py_max_ge a2 b2). pose proof (py_max_ge a3 b3).
  tauto.
Qed.

Lemma concat_empty_cons x l :
  String.concat "" (x :: l) = x ++ String.concat "" l.
Proof.
  cbn [String.concat]. destruct l; [now rewrite str_app_nil_r | reflexivity].
Qed.

(** What the loop over the spans of a line leaves in its state. *)
Lemma fold_add_span line : forall acc,
  let r := fold_left add_span line acc in
  let spans := filter contributes line in
  line_text r = line_text acc ++ String.concat "" (map span_text spans)
  /\ (acc_fontsize acc <= acc_fontsize r)%Q
  /\ Forall (fun sp => (span_size sp <= acc_fontsize r)%Q) spans
  /\ (forall bb, acc_bbox acc = Some bb ->
        exists bb', acc_bbox r = Some bb' /\ bbox_encloses bb' bb)
  /\ Forall (fun sp => exists bb', acc_bbox r = Some bb'
                                   /\ bbox_encloses bb' (span_bbox sp)) spans
  /\ (spans = [] -> r = acc)
  /\ (forall d, spans <> [] ->
        acc_fontname r = span_font (last spans d)
        /\ acc_flags r = span_flags (last spans d)).
Proof.
  induction line as [| sp line IH]; intros acc; cbn zeta.
  - cbn. rewrite str_app_nil_r.
    repeat split; try constructor; try apply Qle_refl; try congruence.
    intros bb Hbb. exists bb. split; [exact Hbb | apply bbox_encloses_refl].
  - cbn [fold_left filter].
    destruct (IH (add_span acc sp))
      as (Htext & Hsize & Hsizes & Hbox & Hboxes & Hnil & Hlast).
    set (r := fold_left add_span line (add_span acc sp)) in *.
    destruct (contributes sp) eqn:Hc.
    + assert (Hadd : add_span acc sp
                     = mkLineAcc
                         (line_text acc ++ span_text sp)
                         (py_max (acc_fontsize acc) (span_size sp))
                         (span_font sp) (span_flags sp)
                         (match acc_bbox acc with
                          | None => Some (span_bbox sp)
                          | Some bbox => Some (merge_bbox bbox (span_bbox sp))
                          end)).
      { unfold add_span. fold (contributes sp). now rewrite Hc. }
      rewrite Hadd in Htext, Hsize, Hbox, Hnil.
      cbn [line_text acc_fontsize acc_bbox] in Htext, Hsize, Hbox.
      pose proof (py_max_ge (acc_fontsize acc) (span_size sp)) as [Hm1 Hm2].
      split; [| split; [| split; [| split; [| split; [| split]]]]].
      * rewrite Htext, map_cons, concat_empty_cons, str_app_assoc.
        reflexivity.
      * eapply Qle_trans; eassumption.
      * constructor; [eapply Qle_trans; eassumption | exact Hsizes].
      * intros bb Hbb. rewrite Hbb in Hbox.
        destruct (Hbox _ eq_refl) as (bb' & Hbb' & Henc).
        exists bb'. split; [exact Hbb' |].
        eapply bbox_encloses_trans; [exact Henc |].
        apply merge_bbox_encloses.
      * constructor; [| exact Hboxes].
        destruct (acc_bbox acc) as [bb |].
        -- destruct (Hbox _ eq_refl) as (bb' & Hbb' & Henc).
           exists bb'. split; [exact Hbb' |].
           eapply bbox_encloses_trans; [exact Henc |].
           apply merge_bbox_encloses.
        -- destruct (Hbox _ eq_refl) as (bb' & Hbb' & Henc). eauto.
      * discriminate.
      * intros d _.
        destruct (filter contributes line) as [| sp' rest] eqn:Hrest.
        -- rewrite (Hnil eq_refl). cbn. auto.
        -- change (last (sp :: sp' :: rest) d) with (last (sp' :: rest) d).
           apply Hlast. discriminate.
    + assert (Hadd : add_span acc sp = acc).
      { unfold add_span. fold (contributes sp). now rewrite Hc. }
      rewrite Hadd in Htext, Hsize, Hbox, Hnil.
      repeat (split; [assumption |]). exact Hlast.
Qed.

(** X18.  Every block comes from one line of a text block of its page, and
    a line gives at most one block.  The block carries the page number; its
    text is the stripped concatenation of the spans that are more than
    whitespace, is not empty and has no whitespace at either end; its font
    size is at least the size of every such span, and not negative; its
    bounding box holds the box of every such span; its font name and flags
    are those of the last such span, and [is_bold] is read off them; its
    position, width and height are those of its bounding box. *)
Theorem extract_page_blocks_spec page page_num b :
  In b (_extract_page_blocks page page_num) ->
  exists lines line,
    In (TextBlock lines) (page_blocks page)
    /\ In line lines
    /\ block_of_line page_num line = [b]
    /\ Block.page b = page_num
    /\ Block.text b
       = Py.strip
           (String.concat "" (map span_text (filter contributes line)))
    /\ Block.text b <> ""
    /\ Py.strip (Block.text b) = Block.text b
    /\ (0 <= Block.fontsize b)%Q
    /\ Forall (fun sp => (span_size sp <= Block.fontsize b)%Q
                         /\ bbox_encloses (Block.bbox b) (span_bbox sp))
         (filter contributes line)
    /\ (forall d,
          Block.fontname b = span_font (last (filter contributes line) d)
          /\ Block.flags b = span_flags (last (filter contributes line) d))
    /\ Block.is_bold b = _is_bold (Block.fontname b) (Block.flags b)
    /\ Block.bbox b
       = (Block.x_position b, Block.y_position b,
          snd (fst (Block.bbox b)), snd (Block.bbox b))
    /\ (Block.width b == snd (fst (Block.bbox b)) - Block.x_position b)%Q
    /\ (Block.height b == snd (Block.bbox b) - Block.y_position b)%Q.
Proof.
  intros Hb. unfold _extract_page_blocks in Hb.
  apply in_flat_map in Hb. destruct Hb as ([lines |] & Hraw & Hb);
    [| contradiction].
  apply in_flat_map in Hb. destruct Hb as (line & Hline & Hb).
  exists lines, line. split; [exact Hraw |]. split; [exact Hline |].
  unfold block_of_line in *.
  pose proof (fold_add_span line (mkLineAcc "" 0 "" 0 None)) as Hfold.
  cbv zeta in Hfold.
  set (r := fold_left add_span line (mkLineAcc "" 0 "" 0 None)) in *.
  destruct Hfold as (Htext & Hsize & Hsizes & _ & Hboxes & Hnil & Hlast).
  cbn [line_text acc_fontsize append] in Htext, Hsize.
  destruct (acc_bbox r) as [[[[x0 y0] x1] y1] |] eqn:Hbox; [| contradiction].
  destruct (Py.is_empty (Py.strip (line_text r))) eqn:Hempty;
    cbn [negb] in *; [contradiction |].
  destruct Hb as [<- | []].
  cbn [Block.page Block.text Block.fontsize Block.bbox Block.fontname
       Block.flags Block.is_bold Block.x_position Block.y_position
       Block.width Block.height fst snd].
  assert (Hne : filter contributes line <> []).
  { intros E. rewrite (Hnil E) in Hbox. discriminate. }
  repeat split.
  - now rewrite Htext.
  - intros E. rewrite E in Hempty. discriminate.
  - apply strip_idem.
  - exact Hsize.
  - rewrite Forall_forall in *. intros sp Hsp. split; [auto |].
    destruct (Hboxes sp Hsp) as (bb' & Hbb' & Henc).
    inversion Hbb'; subst. exact Henc.
  - apply Hlast, Hne.
  - apply Hlast, Hne.
Qed.

(** ** Heading order when no text repeats *)












(** ** Heading levels *)


(** ** The outline of a document *)

(** X21.  The outline that [extract_outline] returns has exactly one
    heading for every candidate block of the document, none invented and
    none lost, each with the text and page of its block, on a page of the
    document; the title is the one [_extract_title] picks for the same
    median. *)
Theorem extract_outline_headings_spec pdf_path result log :
  extract_outline pdf_path = (Ok result, log) ->
  exists doc median_fontsize,
    fitz_open pdf_path = Ok doc
    /\ median (filter (fun s => Qltb 0 s)
                 (map Block.fontsize (all_blocks_from 0 doc)))
       = Ok median_fontsize
    /\ title result = _extract_title (all_blocks_from 0 doc) median_fontsize
    /\ Permutation (outline result)
         (map (heading_of_block median_fontsize)
            (filter (fun b => _is_heading_candidate b median_fontsize)
               (all_blocks_from 0 doc)))
    /\ Forall (fun h => 1 <= Heading.page h <= List.length doc)%nat
         (outline result)
    /\ log = [].
Proof.
  intros Hout.
  destruct (extract_outline_pages pdf_path result log Hout)
    as (doc & Hopen & Hpages).
  unfold extract_outline in Hout. rewrite Hopen in Hout.
  cbn [lift bind] in Hout.
  destruct (Py.len doc =? 0); [discriminate |].
  destruct (filter _ (map Block.fontsize (all_blocks_from 0 doc)))
    as [| s0 sizes] eqn:Hsizes; [discriminate |].
  destruct (median (s0 :: sizes)) as [m | e] eqn:Hm; [| discriminate].
  cbn [lift bind] in Hout.
  destruct (extract_headings_ok (all_blocks_from 0 doc) m)
    as (headings & Hh & Hperm).
  rewrite Hh in Hout. cbn in Hout. inversion Hout; subst.
  exists doc, m. cbn [title outline] in *. rewrite Hsizes.
  repeat split; try assumption; reflexivity.
Qed.

(** ** Sample runs of the further properties *)

Lemma chunk_text_chunks_witness :
  Forall (fun c => Py.len (Py.split c) <= 2) ["a b"; "b c"; "c d"; "d e"]
  /\ chunks_without_overlap 1 ["a b"; "b c"; "c d"; "d e"]
     = Py.split "a b c d e"
  /\ (2 < Py.len (Py.split "a b c d e") ->
      Py.len ["a b"; "b c"; "c d"; "d e"]
      = (Py.len (Py.split "a b c d e") - 2 + (2 - 1) - 1) / (2 - 1) + 1).
Proof.
  apply (chunk_text_chunks "a b c d e" 2 1 ["a b"; "b c"; "c d"; "d e"]).
  - lia.
  - reflexivity.
Defined.

Lemma chunk_text_diverges_iff_witness :
  chunk_text "a b c" 2 2 = None
  /\ forall fuel, chunk_text_fuel fuel "a b c" 2 2 = None.
Proof.
  split; [reflexivity |].
  apply (proj1 (proj2 (chunk_text_diverges_iff "a b c" 2 2))).
  reflexivity.
Defined.


Lemma numbered_heading_patterns_witness :
  re_digits_dot "1.1 Scope" = true.
Proof.
  apply (proj1 (numbered_heading_patterns "1.1 Scope")). reflexivity.
Defined.



Lemma is_bold_spec_witness :
  _is_bold ("Arial-" ++ "BOLD" ++ "MT") 0 = true.
Proof.
  apply (proj1 (proj2 (is_bold_spec "Arial" 0)) "Arial-" "BOLD" "MT").
  reflexivity.
Defined.

Lemma document_sections_fields_witness :
  In (Sec.level (hd sample_section example_sections)) ["H1"; "H2"; "H3"]
  /\ Sec.document (hd sample_section example_sections)
     = Some (name example_file).
Proof.
  destruct (document_sections_fields example_file
              (hd sample_section example_sections)) as (H1 & _ & H2 & _).
  - vm_compute. left. reflexivity.
  - split; assumption.
Defined.


Lemma validate_pdf_accepts_iff_witness : validate_pdf example_file = true.
Proof.
  apply (proj2 (proj1 (validate_pdf_accepts_iff example_file))).
  split; [reflexivity |]. split; [discriminate |].
  exists example_doc. split; [reflexivity | cbn; lia].
Defined.

Lemma remove_stopwords_spec_witness :
  remove_stopwords (remove_stopwords "The cat and the Hat" None) None
  = remove_stopwords "The cat and the Hat" None
  /\ remove_stopwords "The cat and the Hat" None = "cat hat".
Proof.
  split; [| reflexivity].
  apply (proj2 (proj2 (proj2 (remove_stopwords_spec "The cat and the Hat"
                                None)))).
Defined.

Lemma detect_language_context_witness :
  detect_language ("<p>" ++ "this was the end and" ++ "</p>") = "en".
Proof.
  apply (proj2 (proj2 (detect_language_context "this was the end and"))).
  reflexivity.
Defined.

Lemma clean_json_output_idempotent_witness :
  exists items',
    clean_json_output sample_json = PDict items'
    /\ map fst items' = ["title"; "outline"].
Proof.
  destruct (proj1 (proj2 (proj2 (clean_json_output_idempotent sample_json)))
              sample_json_items eq_refl) as (items' & Hclean & Hkeys).
  exists items'. split; [exact Hclean | exact Hkeys].
Defined.

Lemma extract_page_blocks_spec_witness :
  exists lines line,
    In (TextBlock lines) (page_blocks sample_page)
    /\ In line lines
    /\ block_of_line 1 line = [sample_block].
Proof.
  destruct (extract_page_blocks_spec sample_page 1 sample_block)
    as (lines & line & H1 & H2 & H3 & _).
  - cbn. auto.
  - exists lines, line. auto.
Defined.



Lemma extract_outline_headings_spec_witness :
  exists result log doc median_fontsize,
    extract_outline example_file = (Ok result, log)
    /\ fitz_open example_file = Ok doc
    /\ Permutation (outline result)
         (map (heading_of_block median_fontsize)
            (filter (fun b => _is_heading_candidate b median_fontsize)
               (all_blocks_from 0 doc))).
Proof.
  remember (extract_outline example_file) as run eqn:Hrun.
  destruct run as [[result | e] log].
  - symmetry in Hrun.
    destruct (extract_outline_headings_spec example_file result log Hrun)
      as (doc & m & Hopen & _ & _ & Hperm & _).
    exists result, log, doc, m. auto.
  - exfalso. vm_compute in Hrun. discriminate.
Defined.
